(** * Simulador de Meta Patrimonial: the numerical engine of [src/lib/calculos.ts]

    The engine is written over JavaScript numbers and the [Math] object.  Both
    belong to the platform, not to the repository, so the embedding takes them
    as an interface ([JsNumber]): every function of [calculos.ts] is
    translated once, over any implementation of that interface, and the
    theorems about loops, indices and search brackets hold for all of them.
    Two implementations are given afterwards: IEEE-754 binary64 (what a
    JavaScript engine computes with) and exact rational arithmetic.

    Loop counters ([m], [k], [i], [safety]) and array indices are integers in
    the source; they are modelled in [Z].  [Math.floor(mes / 12)] and
    [Math.ceil(mes / 12)] on such a counter are integer divisions (the double
    quotient of a counter below 2^53 by 12 never rounds across an integer). *)

From Stdlib Require Import ZArith QArith Qcanon Qround List Bool Lia String Ascii.
From Stdlib Require Import Floats Uint63 SpecFloat FloatOps FloatAxioms.
From Stdlib Require Import Decimal DecimalPos DecimalString DecimalZ.
Import ListNotations.

Set Implicit Arguments.
Set Warnings "-inexact-float".

(** ** The platform interface *)

Class JsNumber : Type := {
  num : Type;
  (** the number denoted by a decimal literal of the source *)
  lit : Q -> num;
  (** the value [ToNumber(undefined)], what arithmetic makes of a missing
      array element *)
  NaN : num;
  add : num -> num -> num;
  sub : num -> num -> num;
  mul : num -> num -> num;
  div : num -> num -> num;
  Math_pow : num -> num -> num;
  Math_max : num -> num -> num;
  (** [a >= b] and [a > b] *)
  geb : num -> num -> bool;
  gtb : num -> num -> bool;
  Number_isFinite : num -> bool;
  (** [Math.floor] and [Math.round] of a horizon, read as the integer they
      denote.  The data model restricts horizons to finite positive reals;
      the loops below count up to these integers. *)
  Math_floor : num -> Z;
  Math_round : num -> Z;
  (** [Number(s)] on a string *)
  Number_ : string -> num
}.

Declare Scope js_scope.
Delimit Scope js_scope with J.
Notation "a + b" := (add a b) : js_scope.
Notation "a - b" := (sub a b) : js_scope.
Notation "a * b" := (mul a b) : js_scope.
Notation "a / b" := (div a b) : js_scope.
Notation "a >=? b" := (geb a b) (at level 70) : js_scope.
Notation "a >? b" := (gtb a b) (at level 70) : js_scope.

Definition ofZ `{JsNumber} (z : Z) : num := lit (inject_Z z).

(** Reading [l[i]]: [None] stands for [undefined]. *)
Definition index {A : Type} (l : list A) (i : Z) : option A :=
  if (i <? 0)%Z then None else nth_error l (Z.to_nat i).

(** The values taken by the counter of [for (let k = 1; k <= n; k++)]. *)
Definition range1 (n : Z) : list Z := map Z.of_nat (seq 1 (Z.to_nat n)).

(** [ToNumber] on the result of an array read. *)
Definition toNumber `{JsNumber} (v : option num) : num :=
  match v with Some x => x | None => NaN end.

(** ** Inflation schedule *)

(** [inflacaoTabela?: number[]] is an optional array: [None] is an absent
    table.  The result is [None] only for the read [tabela[anoIndex - 1]] at a
    negative index, which is [undefined] in the source. *)
Definition inflacaoAnualDoAno `{JsNumber}
    (anoIndex : Z) (inflacaoPadrao : num) (tabela : option (list num)) : option num :=
  match tabela with
  | None => Some inflacaoPadrao
  | Some t =>
      if (Z.of_nat (List.length t) =? 0)%Z then Some inflacaoPadrao
      else if (anoIndex - 1 <? Z.of_nat (List.length t))%Z then index t (anoIndex - 1)
      else index t (Z.of_nat (List.length t) - 1)
  end.

Definition inflacaoMensalDoMes `{JsNumber}
    (mes : Z) (inflacaoPadrao : num) (tabela : option (list num)) : num :=
  let ano := (- ((- mes) / 12))%Z in
  let ia := toNumber (inflacaoAnualDoAno ano inflacaoPadrao tabela) in
  (Math_pow (ofZ 1 + ia) (ofZ 1 / ofZ 12) - ofZ 1)%J.

(** ** Contribution policies *)

(** The rate fields are declared [number] in the source, so the [?? 0]
    defaults of [aporteNoMes] never apply to a value of this type. *)
Inductive PoliticaAporte `{JsNumber} : Type :=
| constante
| mensal_pct (mensalPct : num)
| anual_pct (anualPct : num)
| anual_inflacao
| anual_real (realExtra : num).

Definition aporteNoMes `{JsNumber}
    (mes : Z) (base : num) (politica : PoliticaAporte)
    (inflacaoAnual : num) (inflacaoTabela : option (list num)) : num :=
  let anosDecorridosAjuste := (mes / 12)%Z in
  match politica with
  | constante => base
  | mensal_pct mensalPct =>
      (base * Math_pow (ofZ 1 + mensalPct) (ofZ (mes - 1)))%J
  | anual_pct anualPct =>
      (base * Math_pow (ofZ 1 + anualPct) (ofZ anosDecorridosAjuste))%J
  | anual_inflacao =>
      let fator :=
        fold_left
          (fun fator k =>
             (fator * (ofZ 1 + toNumber (inflacaoAnualDoAno k inflacaoAnual inflacaoTabela)))%J)
          (range1 anosDecorridosAjuste) (ofZ 1) in
      (base * fator)%J
  | anual_real realExtra =>
      let fator :=
        fold_left
          (fun fator k =>
             (fator * ((ofZ 1 + toNumber (inflacaoAnualDoAno k inflacaoAnual inflacaoTabela))
                       * (ofZ 1 + realExtra)))%J)
          (range1 anosDecorridosAjuste) (ofZ 1) in
      (base * fator)%J
  end.

(** ** Projection *)

Record ProjecaoDado `{JsNumber} : Type := {
  mes : Z;
  saldo : num;
  contribuicoesAcum : num;
  ganhosAcum : num;
  aporte : num
}.

Record Projecao `{JsNumber} : Type := {
  dados : list ProjecaoDado;
  mesAlvo : option Z;
  taxaMensalNominalConst : num;
  taxaMensalInflacaoMedia : num
}.

(** The variables the month loop of [calcularProjecao] assigns. *)
Record Estado `{JsNumber} : Type := {
  st_saldo : num;
  st_contribuicoesAcum : num;
  st_dados : list ProjecaoDado;
  st_mesAlvo : option Z;
  st_somaInflacaoMensal : num
}.

(** The rate applied in month [m] for a constant nominal monthly rate. *)
Definition taxaMensalEfetiva `{JsNumber}
    (usarTaxaReal : bool) (taxaNominal inflMensal : num) : num :=
  if usarTaxaReal then ((ofZ 1 + taxaNominal) / (ofZ 1 + inflMensal) - ofZ 1)%J
  else taxaNominal.

(** One turn of [for (let m = 1; m <= mesesLimite; m++)]. *)
Definition passoMes `{JsNumber}
    (aporteMensal taxaMensalNominalConst meta : num)
    (contribuicaoNoInicio usarTaxaReal : bool)
    (inflacaoAnual : num) (inflacaoTabela : option (list num))
    (politicaAporte : PoliticaAporte)
    (st : Estado) (m : Z) : Estado :=
  let inflMensal := inflacaoMensalDoMes m inflacaoAnual inflacaoTabela in
  let somaInflacaoMensal := (st_somaInflacaoMensal st + inflMensal)%J in
  let taxa := taxaMensalEfetiva usarTaxaReal taxaMensalNominalConst inflMensal in
  let aporteMes := aporteNoMes m aporteMensal politicaAporte inflacaoAnual inflacaoTabela in
  let '(saldo1, contrib1) :=
    if contribuicaoNoInicio then
      let s := (st_saldo st + aporteMes)%J in
      let c := (st_contribuicoesAcum st + aporteMes)%J in
      ((s * (ofZ 1 + taxa))%J, c)
    else
      let s := (st_saldo st * (ofZ 1 + taxa))%J in
      ((s + aporteMes)%J, (st_contribuicoesAcum st + aporteMes)%J) in
  let ganhos := (saldo1 - contrib1)%J in
  {| st_saldo := saldo1;
     st_contribuicoesAcum := contrib1;
     st_dados := st_dados st ++
       [{| mes := m; saldo := saldo1; contribuicoesAcum := contrib1;
           ganhosAcum := ganhos; aporte := aporteMes |}];
     st_mesAlvo :=
       match st_mesAlvo st with
       | None => if (saldo1 >=? meta)%J then Some m else None
       | Some alvo => Some alvo
       end;
     st_somaInflacaoMensal := somaInflacaoMensal |}.

(** The optional field [politicaAporte] defaults to [{ tipo: "constante" }]. *)
Definition politicaOuConstante `{JsNumber} (p : option PoliticaAporte) : PoliticaAporte :=
  match p with Some q => q | None => constante end.

(** The assignments before the loop: the seed record and the initial
    [mesAlvo]. *)
Definition estadoInicial `{JsNumber} (montanteInicial meta : num) : Estado :=
  let saldo0 := montanteInicial in
  let contribuicoesAcum0 := montanteInicial in
  {| st_saldo := saldo0;
     st_contribuicoesAcum := contribuicoesAcum0;
     st_dados :=
       [{| mes := 0; saldo := saldo0; contribuicoesAcum := contribuicoesAcum0;
           ganhosAcum := (saldo0 - contribuicoesAcum0)%J; aporte := ofZ 0 |}];
     st_mesAlvo := if (saldo0 >=? meta)%J then Some 0%Z else None;
     st_somaInflacaoMensal := ofZ 0 |}.

Definition calcularProjecao `{JsNumber}
    (montanteInicial aporteMensal rentabAnual meta anosLimite : num)
    (contribuicaoNoInicio usarTaxaReal : bool)
    (inflacaoAnual : num) (inflacaoTabela : option (list num))
    (politicaAporte : option PoliticaAporte) : Projecao :=
  let politica := politicaOuConstante politicaAporte in
  let taxaMensalNominalConst :=
    (Math_pow (ofZ 1 + rentabAnual) (ofZ 1 / ofZ 12) - ofZ 1)%J in
  let mesesLimite := Z.max 1 (Math_floor (anosLimite * ofZ 12)%J) in
  let fim :=
    fold_left
      (passoMes aporteMensal taxaMensalNominalConst meta contribuicaoNoInicio
                usarTaxaReal inflacaoAnual inflacaoTabela politica)
      (range1 mesesLimite) (estadoInicial montanteInicial meta) in
  {| dados := st_dados fim;
     mesAlvo := st_mesAlvo fim;
     taxaMensalNominalConst := taxaMensalNominalConst;
     taxaMensalInflacaoMedia :=
       (st_somaInflacaoMensal fim / ofZ (Z.max 1 mesesLimite))%J |}.

(** The state of the loop after its first [n] turns. *)
Definition estadoApos `{JsNumber}
    (montanteInicial aporteMensal taxaNominal meta : num)
    (contribuicaoNoInicio usarTaxaReal : bool)
    (inflacaoAnual : num) (inflacaoTabela : option (list num))
    (politica : PoliticaAporte) (n : nat) : Estado :=
  fold_left
    (passoMes aporteMensal taxaNominal meta contribuicaoNoInicio
              usarTaxaReal inflacaoAnual inflacaoTabela politica)
    (range1 (Z.of_nat n)) (estadoInicial montanteInicial meta).

(** The balance one month later, as the loop body computes it. *)
Definition novoSaldo `{JsNumber}
    (contribuicaoNoInicio : bool) (saldoAnterior aporteMes taxa : num) : num :=
  if contribuicaoNoInicio then ((saldoAnterior + aporteMes) * (ofZ 1 + taxa))%J
  else (saldoAnterior * (ofZ 1 + taxa) + aporteMes)%J.

(** [dados[m].saldo] as a number ([NaN] for a missing record). *)
Definition saldoEm `{JsNumber} (ds : list ProjecaoDado) (m : Z) : num :=
  toNumber (option_map saldo (index ds m)).

(** ** Required contribution *)

(** [dados[nMeses]?.saldo ?? dados[dados.length - 1].saldo]; [None] is the
    [TypeError] of reading [.saldo] of [undefined]. *)
Definition saldoFinal `{JsNumber} (dados : list ProjecaoDado) (nMeses : Z) : option num :=
  match index dados nMeses with
  | Some d => Some (saldo d)
  | None =>
      match index dados (Z.of_nat (List.length dados) - 1) with
      | Some d => Some (saldo d)
      | None => None
      end
  end.

Definition atingeMetaComAporte `{JsNumber}
    (montanteInicial rentabAnual anos meta : num)
    (contribuicaoNoInicio usarTaxaReal : bool)
    (inflacaoAnual : num) (inflacaoTabela : option (list num))
    (politicaAporte : option PoliticaAporte)
    (A : num) : option bool :=
  let nMeses := Z.max 1 (Math_round (anos * ofZ 12)%J) in
  let r := calcularProjecao montanteInicial A rentabAnual meta anos
             contribuicaoNoInicio usarTaxaReal inflacaoAnual inflacaoTabela
             (Some (politicaOuConstante politicaAporte)) in
  if match mesAlvo r with Some alvo => (alvo <=? nMeses)%Z | None => false end
  then Some true
  else
    match saldoFinal (dados r) nMeses with
    | Some sf => Some (sf >=? meta)%J
    | None => None
    end.

(** [while (!atinge(hi) && safety < 50) { hi *= 2; safety++; if (hi > 1e9) break; }]
    with [restantes = 50 - safety]. *)
Fixpoint dobrarLimite `{JsNumber}
    (atinge : num -> option bool) (restantes : nat) (hi : num) : option num :=
  match atinge hi with
  | None => None
  | Some true => Some hi
  | Some false =>
      match restantes with
      | O => Some hi
      | S r =>
          let hi' := (hi * ofZ 2)%J in
          if (hi' >? ofZ 1000000000)%J then Some hi'
          else dobrarLimite atinge r hi'
      end
  end.

(** [for (let i = 0; i < 80; i++) { ... }] followed by [return hi]. *)
Fixpoint bissecaoAporte `{JsNumber}
    (atinge : num -> option bool) (iteracoes : nat) (lo hi : num) : option num :=
  match iteracoes with
  | O => Some hi
  | S i =>
      let mid := ((lo + hi) / ofZ 2)%J in
      match atinge mid with
      | None => None
      | Some true => bissecaoAporte atinge i lo mid
      | Some false => bissecaoAporte atinge i mid hi
      end
  end.

Definition aporteNecessario `{JsNumber}
    (montanteInicial rentabAnual anos meta : num)
    (contribuicaoNoInicio usarTaxaReal : bool)
    (inflacaoAnual : num) (inflacaoTabela : option (list num))
    (politicaAporte : option PoliticaAporte) : option num :=
  let nMeses := Z.max 1 (Math_round (anos * ofZ 12)%J) in
  let atinge :=
    atingeMetaComAporte montanteInicial rentabAnual anos meta contribuicaoNoInicio
      usarTaxaReal inflacaoAnual inflacaoTabela politicaAporte in
  let lo := ofZ 0 in
  let hi := Math_max (ofZ 100) (meta / ofZ nMeses)%J in
  match dobrarLimite atinge 50 hi with
  | None => None
  | Some hi1 => bissecaoAporte atinge 80 lo hi1
  end.

(** ** Required rate *)

Definition saldoFinalComTaxa `{JsNumber}
    (montanteInicial aporteMensal : num) (n : Z)
    (contribuicaoNoInicio usarTaxaReal : bool)
    (inflacaoAnual : num) (inflacaoTabela : option (list num))
    (politicaAporte : PoliticaAporte)
    (rMensalNominalConst : num) : num :=
  fold_left
    (fun saldo m =>
       let inflMensal := inflacaoMensalDoMes m inflacaoAnual inflacaoTabela in
       let rEfetivo := taxaMensalEfetiva usarTaxaReal rMensalNominalConst inflMensal in
       let aporteMes := aporteNoMes m aporteMensal politicaAporte inflacaoAnual inflacaoTabela in
       if contribuicaoNoInicio then ((saldo + aporteMes) * (ofZ 1 + rEfetivo))%J
       else (saldo * (ofZ 1 + rEfetivo) + aporteMes)%J)
    (range1 n) montanteInicial.

Definition inflacaoMediaAnual `{JsNumber}
    (inflacaoAnual : num) (inflacaoTabela : option (list num)) : num :=
  match inflacaoTabela with
  | Some t =>
      if (0 <? Z.of_nat (List.length t))%Z
      then (fold_left (fun acc val => (acc + val)%J) t (ofZ 0)
            / ofZ (Z.of_nat (List.length t)))%J
      else inflacaoAnual
  | None => inflacaoAnual
  end.

Definition toAnualNominal `{JsNumber}
    (usarTaxaReal : bool) (inflacaoMedia : num) (rMensal : num) : num :=
  let rAnualReal := (Math_pow (ofZ 1 + rMensal) (ofZ 12) - ofZ 1)%J in
  if negb usarTaxaReal then rAnualReal
  else ((ofZ 1 + rAnualReal) * (ofZ 1 + inflacaoMedia) - ofZ 1)%J.

(** [for (let i = 0; i < 160; i++) { ... }]: the result is the final value of
    [found]; the [break] leaves the loop with the value it has. *)
Fixpoint buscaTaxa `{JsNumber}
    (saldoFinalDe : num -> num) (meta : num)
    (iteracoes : nat) (lo hi : num) (found : option num) : option num :=
  match iteracoes with
  | O => found
  | S i =>
      let mid := ((lo + hi) / ofZ 2)%J in
      let sf := saldoFinalDe mid in
      if negb (Number_isFinite sf) then found
      else if (sf >=? meta)%J then buscaTaxa saldoFinalDe meta i lo mid (Some mid)
      else buscaTaxa saldoFinalDe meta i mid hi found
  end.

(** A candidate rate qualifies when its final balance is finite and reaches
    the target: the two tests of the loop body. *)
Definition qualifica `{JsNumber} (saldoFinalDe : num -> num) (meta : num) (c : num) : bool :=
  Number_isFinite (saldoFinalDe c) && (saldoFinalDe c >=? meta)%J.

(** The midpoints the loop of [buscaTaxa] evaluates [saldoFinalDe] at, in
    order, the one that triggers the [break] included. *)
Fixpoint candidatos `{JsNumber}
    (saldoFinalDe : num -> num) (meta : num)
    (iteracoes : nat) (lo hi : num) : list num :=
  match iteracoes with
  | O => []
  | S i =>
      let mid := ((lo + hi) / ofZ 2)%J in
      let sf := saldoFinalDe mid in
      if negb (Number_isFinite sf) then [mid]
      else if (sf >=? meta)%J then mid :: candidatos saldoFinalDe meta i lo mid
      else mid :: candidatos saldoFinalDe meta i mid hi
  end.

(** [None] is the [null] of the source. *)
Definition taxaNecessaria `{JsNumber}
    (montanteInicial aporteMensal anos meta : num)
    (contribuicaoNoInicio usarTaxaReal : bool)
    (inflacaoAnual : num) (inflacaoTabela : option (list num))
    (politicaAporte : option PoliticaAporte) : option num :=
  let n := Z.max 1 (Math_round (anos * ofZ 12)%J) in
  let sf :=
    saldoFinalComTaxa montanteInicial aporteMensal n contribuicaoNoInicio
      usarTaxaReal inflacaoAnual inflacaoTabela (politicaOuConstante politicaAporte) in
  let lo := lit (-9 # 10) in
  let hi := ofZ 1 in
  let media := inflacaoMediaAnual inflacaoAnual inflacaoTabela in
  match buscaTaxa sf meta 160 lo hi None with
  | None => None
  | Some found => Some (toAnualNominal usarTaxaReal media found)
  end.

(** The candidates of a call of [taxaNecessaria]. *)
Definition candidatosTaxa `{JsNumber}
    (montanteInicial aporteMensal anos meta : num)
    (contribuicaoNoInicio usarTaxaReal : bool)
    (inflacaoAnual : num) (inflacaoTabela : option (list num))
    (politicaAporte : option PoliticaAporte) : list num :=
  let n := Z.max 1 (Math_round (anos * ofZ 12)%J) in
  candidatos
    (saldoFinalComTaxa montanteInicial aporteMensal n contribuicaoNoInicio
       usarTaxaReal inflacaoAnual inflacaoTabela (politicaOuConstante politicaAporte))
    meta 160 (lit (-9 # 10)) (ofZ 1).

(** ** The schedule tokenizer *)

(** The characters of the class [[,;\n\t\s]] among ASCII. *)
Definition espaco (c : ascii) : bool :=
  let n := nat_of_ascii c in
  ((n =? 9) || (n =? 10) || (n =? 11) || (n =? 12) || (n =? 13) || (n =? 32))%nat.

Definition separador (c : ascii) : bool :=
  let n := nat_of_ascii c in
  ((n =? 44) || (n =? 59))%nat || espaco c.

(** [str.split(/[,;\n\t\s]+/)]: the pieces between maximal runs of
    separators, an empty first or last piece included. *)
Fixpoint splitAux (s : string) (peca : string) (emSeparador : bool) : list string :=
  match s with
  | EmptyString => [peca]
  | String c r =>
      if separador c then
        if emSeparador then splitAux r peca true
        else peca :: splitAux r EmptyString true
      else splitAux r (peca ++ String c EmptyString)%string false
  end.

Definition splitTabela (s : string) : list string := splitAux s EmptyString false.

Fixpoint trimStart (s : string) : string :=
  match s with
  | String c r => if espaco c then trimStart r else s
  | EmptyString => EmptyString
  end.

Fixpoint rev_string (s : string) : string :=
  match s with
  | EmptyString => EmptyString
  | String c r => (rev_string r ++ String c EmptyString)%string
  end.

Definition trim (s : string) : string :=
  rev_string (trimStart (rev_string (trimStart s))).

(** [s.replace(/%/g, "")] *)
Fixpoint semPorcento (s : string) : string :=
  match s with
  | EmptyString => EmptyString
  | String c r => if (nat_of_ascii c =? 37)%nat then semPorcento r else String c (semPorcento r)
  end.

(** [s.replace(",", ".")]: the first comma only. *)
Fixpoint virgulaParaPonto (s : string) : string :=
  match s with
  | EmptyString => EmptyString
  | String c r =>
      if (nat_of_ascii c =? 44)%nat then String "."%char r else String c (virgulaParaPonto r)
  end.

Definition naoVazia (s : string) : bool :=
  match s with EmptyString => false | _ => true end.

Definition parseInflacaoTabela `{JsNumber} (str : string) : list num :=
  map (fun x => Math_max (lit (-99 # 100)) x)
    (filter Number_isFinite
       (map Number_
          (map (fun s => virgulaParaPonto (semPorcento s))
             (filter naoVazia (map trim (splitTabela str)))))).

(** ** Month counts as text *)

(** [`${n}`] for an integer [n]. *)
Definition decimal (z : Z) : string := NilZero.string_of_int (Z.to_int z).

(** [totalMeses] is a whole number of months (a [mesAlvo]); [%] is the
    remainder of the truncated division. *)
Definition mesesParaAnosMeses (totalMeses : Z) : string :=
  let anos := (totalMeses / 12)%Z in
  let meses := Z.rem totalMeses 12 in
  let partes :=
    (if (0 <? anos)%Z
     then [(decimal anos ++ " " ++ (if (anos =? 1)%Z then "ano" else "anos"))%string]
     else [])
    ++ [(decimal meses ++ " " ++ (if (meses =? 1)%Z then "mês" else "meses"))%string] in
  String.concat " e " partes.

(** No character of [s] is a blank. *)
Fixpoint semBranco (s : string) : bool :=
  match s with
  | EmptyString => true
  | String c r => negb (Ascii.eqb c " ") && semBranco r
  end.

(** ** Records of the series *)

(** The record the loop appends in its turn [k], from the state after that
    turn; record 0 is the seed. *)
Definition registroApos `{JsNumber}
    (montanteInicial aporteMensal taxaNominal meta : num)
    (contribuicaoNoInicio usarTaxaReal : bool)
    (inflacaoAnual : num) (inflacaoTabela : option (list num))
    (politica : PoliticaAporte) (k : nat) : ProjecaoDado :=
  let st :=
    estadoApos montanteInicial aporteMensal taxaNominal meta contribuicaoNoInicio
      usarTaxaReal inflacaoAnual inflacaoTabela politica k in
  {| mes := Z.of_nat k;
     saldo := st_saldo st;
     contribuicoesAcum := st_contribuicoesAcum st;
     ganhosAcum := (st_saldo st - st_contribuicoesAcum st)%J;
     aporte :=
       match k with
       | O => ofZ 0
       | S _ => aporteNoMes (Z.of_nat k) aporteMensal politica inflacaoAnual inflacaoTabela
       end |}.

(** ** Policies and inflation *)

(** The policies whose amounts do not read the inflation inputs. *)
Definition semInflacao `{JsNumber} (politica : PoliticaAporte) : bool :=
  match politica with
  | anual_inflacao | anual_real _ => false
  | _ => true
  end.

(** ** The bracket of the contribution solver *)

(** The upper bound after [k] turns of the doubling loop. *)
Definition dobrado `{JsNumber} (k : nat) (hi : num) : num :=
  Nat.iter k (fun h => (h * ofZ 2)%J) hi.

(** The upper bound after [k] bisection steps that all moved [hi]. *)
Definition reduzido `{JsNumber} (k : nat) (lo hi : num) : num :=
  Nat.iter k (fun h => ((lo + h) / ofZ 2)%J) hi.

(** ** Tokens of the schedule *)

(** No character of [s] is in the separator class. *)
Fixpoint semSeparador (s : string) : bool :=
  match s with
  | EmptyString => true
  | String c r => negb (separador c) && semSeparador r
  end.

(** ** Decimal strings *)

(** The decimal fragment of [Number(s)]: optional surrounding white space, an
    optional sign, digits with at most one point and at least one digit; the
    empty string is 0.  Exponents, hexadecimal forms and [Infinity] are left
    out: [None] stands for a string outside this fragment. *)
Definition digito (c : ascii) : option Z :=
  let n := nat_of_ascii c in
  if ((48 <=? n) && (n <=? 57))%nat then Some (Z.of_nat (n - 48)) else None.

(** Reads [s] as digits after [casas] fractional places were announced by a
    point ([None] before the point); the result is the integer made of all
    digits and the number of fractional ones. *)
Fixpoint lerDigitos (s : string) (valor : Z) (casas : option nat) (vistos : bool)
    : option (Z * nat) :=
  match s with
  | EmptyString =>
      if vistos then Some (valor, match casas with Some k => k | None => O end) else None
  | String c r =>
      match digito c with
      | Some d => lerDigitos r (10 * valor + d) (option_map S casas) true
      | None =>
          if (nat_of_ascii c =? 46)%nat then
            match casas with
            | None => lerDigitos r valor (Some O) vistos
            | Some _ => None
            end
          else None
      end
  end.

Definition parseDecimal (s : string) : option Q :=
  let corpo (negativo : bool) (r : string) :=
    match lerDigitos r 0 None false with
    | Some (v, k) =>
        Some (Qmake (if negativo then (- v)%Z else v) (Z.to_pos (10 ^ Z.of_nat k)))
    | None => None
    end in
  match trim s with
  | EmptyString => Some (Qmake 0 1)
  | String c r =>
      if (nat_of_ascii c =? 45)%nat then corpo true r
      else if (nat_of_ascii c =? 43)%nat then corpo false r
      else corpo false (String c r)
  end.

(** ** IEEE-754 binary64 numbers *)

Module IEEE.

Definition ofInt (z : Z) : float :=
  match z with
  | Z0 => 0%float
  | Zpos _ => PrimFloat.of_uint63 (Uint63.of_Z z)
  | Zneg p => PrimFloat.opp (PrimFloat.of_uint63 (Uint63.of_Z (Zpos p)))
  end.

(** A decimal literal [n / 10^k] is the correctly rounded quotient of two
    integers that are doubles themselves (below 2^53). *)
Definition literal (q : Q) : float :=
  PrimFloat.div (ofInt (Qnum q)) (ofInt (Zpos (Qden q))).

Definition nan : float := PrimFloat.div 0 0.

(** [Math.floor] and [Math.round] (ties towards plus infinity) of a finite
    double [±m·2^e], computed on the integers; a horizon is finite, and the
    value on NaN and the infinities is not used. *)
Definition floor (x : float) : Z :=
  match Prim2SF x with
  | S754_finite s m e => Z.shiftl (if s then Zneg m else Zpos m) e
  | _ => 0%Z
  end.

Definition round (x : float) : Z :=
  match Prim2SF x with
  | S754_finite s m e =>
      let v := if s then Zneg m else Zpos m in
      if (0 <=? e)%Z then Z.shiftl v e
      else ((2 * v + 2 ^ (- e)) / 2 ^ (1 - e))%Z
  | _ => 0%Z
  end.

(** [Math.max]: NaN if an argument is NaN, and +0 above -0. *)
Definition max (a b : float) : float :=
  if PrimFloat.is_nan a || PrimFloat.is_nan b then nan
  else if PrimFloat.ltb a b then b
  else if PrimFloat.ltb b a then a
  else if PrimFloat.get_sign a then b else a.

Fixpoint potencia (x : float) (n : nat) : float :=
  match n with
  | O => 1%float
  | S O => x
  | S k => PrimFloat.mul (potencia x k) x
  end.

(** [Math.pow] is implementation-approximated in ECMAScript.  This version
    gives the values every engine agrees on (exponent ±0, exponent 1, base
    1), a left-to-right product for the other natural exponents up to 4096,
    and NaN elsewhere: examples are kept inside that fragment. *)
Definition pow (x y : float) : float :=
  if PrimFloat.is_zero y then 1%float
  else if PrimFloat.eqb y 1 then x
  else if PrimFloat.is_nan y || PrimFloat.is_nan x then nan
  else if PrimFloat.eqb x 1 then (if PrimFloat.is_finite y then 1%float else nan)
  else
    let n := floor y in
    if PrimFloat.eqb (ofInt n) y && (2 <=? n)%Z && (n <=? 4096)%Z
    then potencia x (Z.to_nat n)
    else nan.

Definition ofString (s : string) : float :=
  match parseDecimal s with
  | Some q => literal q
  | None => nan
  end.

Definition number : JsNumber := {|
  num := float;
  lit := literal;
  NaN := nan;
  add := PrimFloat.add;
  sub := PrimFloat.sub;
  mul := PrimFloat.mul;
  div := PrimFloat.div;
  Math_pow := pow;
  Math_max := max;
  geb := fun a b => PrimFloat.leb b a;
  gtb := fun a b => PrimFloat.ltb b a;
  Number_isFinite := PrimFloat.is_finite;
  Math_floor := floor;
  Math_round := round;
  Number_ := ofString
|}.

End IEEE.

(** ** Exact rational numbers *)

(** Arithmetic without rounding: a number is a rational, or [None] where the
    operation has no rational value (NaN, a division by zero, a root). *)
Module Exact.

Definition lift2 (f : Qc -> Qc -> Qc) (a b : option Qc) : option Qc :=
  match a, b with
  | Some x, Some y => Some (f x y)
  | _, _ => None
  end.

Definition quociente (a b : option Qc) : option Qc :=
  match a, b with
  | Some x, Some y => if Qc_eq_dec y (Q2Qc 0) then None else Some (Qcdiv x y)
  | _, _ => None
  end.

Definition maximo (a b : option Qc) : option Qc :=
  match a, b with
  | Some x, Some y => if Qle_bool (this x) (this y) then Some y else Some x
  | _, _ => None
  end.

Definition maiorOuIgual (a b : option Qc) : bool :=
  match a, b with
  | Some x, Some y => Qle_bool (this y) (this x)
  | _, _ => false
  end.

Definition maior (a b : option Qc) : bool :=
  match a, b with
  | Some x, Some y => negb (Qle_bool (this x) (this y))
  | _, _ => false
  end.

(** Integer exponents are exact; one to any power is one; the other powers
    are not rational in general. *)
Definition pow (a b : option Qc) : option Qc :=
  match b with
  | None => None
  | Some y =>
      if Qc_eq_dec y (Q2Qc 0) then Some (Q2Qc 1)
      else
        match a with
        | None => None
        | Some x =>
            if Qc_eq_dec y (Q2Qc 1) then Some x
            else if Qc_eq_dec x (Q2Qc 1) then Some (Q2Qc 1)
            else
              match Qden (this y), Qnum (this y) with
              | xH, Zpos n => Some (Qcpower x (Pos.to_nat n))
              | xH, Zneg n =>
                  if Qc_eq_dec x (Q2Qc 0) then None
                  else Some (Qcinv (Qcpower x (Pos.to_nat n)))
              | _, _ => None
              end
        end
  end.

Definition ofString (s : string) : option Qc :=
  match parseDecimal s with
  | Some q => Some (Q2Qc q)
  | None => None
  end.

Definition q (x : Q) : option Qc := Some (Q2Qc x).

Definition number : JsNumber := {|
  num := option Qc;
  lit := q;
  NaN := None;
  add := lift2 Qcplus;
  sub := lift2 Qcminus;
  mul := lift2 Qcmult;
  div := quociente;
  Math_pow := pow;
  Math_max := maximo;
  geb := maiorOuIgual;
  gtb := maior;
  Number_isFinite := fun a => match a with Some _ => true | None => false end;
  Math_floor := fun a => match a with Some x => Qfloor (this x) | None => 0%Z end;
  Math_round := fun a =>
    match a with Some x => Qfloor (this x + (1 # 2)) | None => 0%Z end;
  Number_ := ofString
|}.

End Exact.

(** ** Laws of the arithmetic *)

(** Units of multiplication and exponentiation.  They hold of binary64
    arithmetic with [Math.pow] as every engine computes it (an exponent ±0
    gives 1 by the language definition), and of the exact numbers: both are
    proved below. *)
Record UnitLaws (N : JsNumber) : Prop := {
  mul_1_r : forall x : num, (x * ofZ 1)%J = x;
  pow_0_r : forall x : num, Math_pow x (ofZ 0) = ofZ 1;
  pow_1_r : forall x : num, Math_pow x (ofZ 1) = x
}.

(** What summing a constant month after month needs for the closed form
    [n × A]: arithmetic without rounding.  Binary64 addition does not satisfy
    [mul_add_distr_r]. *)
Record ExactLaws (N : JsNumber) : Prop := {
  exact_units : UnitLaws N;
  add_0_l : forall x : num, (ofZ 0 + x)%J = x;
  add_0_r : forall x : num, (x + ofZ 0)%J = x;
  mul_1_l : forall x : num, (ofZ 1 * x)%J = x;
  sub_1_1 : (ofZ 1 - ofZ 1)%J = ofZ 0;
  root_1 : Math_pow (ofZ 1) (ofZ 1 / ofZ 12)%J = ofZ 1;
  mul_add_distr_r : forall x y z : num, ((x + y) * z)%J = (x * z + y * z)%J;
  ofZ_succ : forall n : Z, (0 <= n)%Z -> ofZ (n + 1) = (ofZ n + ofZ 1)%J
}.

(** * Properties *)

(** ** Counters and array reads *)

Lemma range1_snoc (n : nat) :
  range1 (Z.of_nat (S n)) = range1 (Z.of_nat n) ++ [Z.of_nat (S n)].
Proof.
  unfold range1. rewrite !Nat2Z.id, seq_S, map_app. reflexivity.
Qed.

Lemma range1_In (n k : Z) : In k (range1 n) <-> (1 <= k <= n)%Z.
Proof.
  unfold range1. rewrite in_map_iff. split.
  - intros (j & <- & Hj). apply in_seq in Hj. lia.
  - intros Hk. exists (Z.to_nat k). split; [lia|]. apply in_seq. lia.
Qed.

Lemma index_of_nat {A : Type} (l : list A) (k : nat) :
  index l (Z.of_nat k) = nth_error l k.
Proof.
  unfold index. destruct (Z.ltb_spec (Z.of_nat k) 0); [lia|].
  now rewrite Nat2Z.id.
Qed.

Lemma index_out {A : Type} (l : list A) (i : Z) :
  (i < 0 \/ Z.of_nat (List.length l) <= i)%Z -> index l i = None.
Proof.
  intros Hi. unfold index. destruct (Z.ltb_spec i 0); [reflexivity|].
  apply nth_error_None. lia.
Qed.

Lemma find_append {A : Type} (f : A -> bool) (l l' : list A) :
  find f (l ++ l') = match find f l with Some x => Some x | None => find f l' end.
Proof.
  induction l as [|a l IH]; cbn; [reflexivity|].
  destruct (f a); [reflexivity|exact IH].
Qed.

Lemma find_ext_In {A : Type} (f g : A -> bool) (l : list A) :
  (forall x, In x l -> f x = g x) -> find f l = find g l.
Proof.
  induction l as [|a l IH]; intros Hfg; cbn; [reflexivity|].
  rewrite (Hfg a) by now left.
  destruct (g a); [reflexivity|]. apply IH. intros x Hx. apply Hfg. now right.
Qed.

Lemma find_None_iff {A : Type} (f : A -> bool) (l : list A) :
  find f l = None <-> (forall x, In x l -> f x = false).
Proof.
  split; [intros H x Hx; exact (find_none f l H x Hx)|].
  induction l as [|a l IH]; intros H; cbn; [reflexivity|].
  rewrite (H a) by now left. apply IH. intros x Hx. apply H. now right.
Qed.

(** [find] over the months 1..n returns the smallest month that passes. *)
Lemma find_range1_Some (f : Z -> bool) (n : nat) (m : Z) :
  find f (range1 (Z.of_nat n)) = Some m <->
  (1 <= m <= Z.of_nat n)%Z /\ f m = true /\
  (forall k, (1 <= k < m)%Z -> f k = false).
Proof.
  revert m. induction n as [|n IH]; intros m.
  - cbn. split; [discriminate|lia].
  - rewrite range1_snoc, find_append.
    destruct (find f (range1 (Z.of_nat n))) as [x|] eqn:Hfind.
    + destruct (proj1 (IH x) eq_refl) as (Hx & Hfx & Hminx). split.
      * intros E. injection E as <-. repeat split; try assumption; lia.
      * intros (Hm & Hfm & Hminm). f_equal.
        destruct (Z.lt_trichotomy x m) as [Hlt|[E|Hgt]]; [|exact E|].
        -- rewrite (Hminm x) in Hfx by lia. discriminate.
        -- rewrite (Hminx m) in Hfm by lia. discriminate.
    + pose proof (proj1 (find_None_iff f _) Hfind) as Hnone.
      assert (Hbelow : forall k, (1 <= k <= Z.of_nat n)%Z -> f k = false)
        by (intros k Hk; apply Hnone, range1_In; exact Hk).
      cbn [find]. destruct (f (Z.of_nat (S n))) eqn:Hlast; split.
      * intros E. injection E as <-. repeat split; try assumption; try lia.
        intros k Hk. apply Hbelow. lia.
      * intros (Hm & Hfm & _). f_equal.
        destruct (Z.eq_dec m (Z.of_nat (S n))) as [E|Hne]; [now symmetry|].
        rewrite Hbelow in Hfm by lia. discriminate.
      * discriminate.
      * intros (Hm & Hfm & _).
        destruct (Z.eq_dec m (Z.of_nat (S n))) as [E|Hne]; [congruence|].
        rewrite Hbelow in Hfm by lia. discriminate.
Qed.

Lemma find_range1_None (f : Z -> bool) (n : Z) :
  find f (range1 n) = None <-> (forall k, (1 <= k <= n)%Z -> f k = false).
Proof.
  rewrite find_None_iff. split.
  - intros H k Hk. apply H, range1_In, Hk.
  - intros H k Hk. apply H, range1_In, Hk.
Qed.

(** ** The month loop of [calcularProjecao] *)

Section Laco.
Context {N : JsNumber}.
Variables (montanteInicial aporteMensal taxaNominal meta : num).
Variables (contribuicaoNoInicio usarTaxaReal : bool).
Variables (inflacaoAnual : num) (inflacaoTabela : option (list num)).
Variable (politica : PoliticaAporte).

Let passo :=
  passoMes aporteMensal taxaNominal meta contribuicaoNoInicio usarTaxaReal
    inflacaoAnual inflacaoTabela politica.
Let apos :=
  estadoApos montanteInicial aporteMensal taxaNominal meta contribuicaoNoInicio
    usarTaxaReal inflacaoAnual inflacaoTabela politica.
Let aporteDe (m : Z) := aporteNoMes m aporteMensal politica inflacaoAnual inflacaoTabela.
Let taxaDe (m : Z) :=
  taxaMensalEfetiva usarTaxaReal taxaNominal
    (inflacaoMensalDoMes m inflacaoAnual inflacaoTabela).

Lemma apos_S (n : nat) : apos (S n) = passo (apos n) (Z.of_nat (S n)).
Proof.
  unfold apos, estadoApos. rewrite range1_snoc, fold_left_app. reflexivity.
Qed.

Lemma passo_saldo (st : Estado) (m : Z) :
  st_saldo (passo st m) =
  novoSaldo contribuicaoNoInicio (st_saldo st) (aporteDe m) (taxaDe m).
Proof.
  unfold passo, passoMes, novoSaldo, aporteDe, taxaDe.
  destruct contribuicaoNoInicio; reflexivity.
Qed.

Lemma passo_dados (st : Estado) (m : Z) :
  exists d,
    st_dados (passo st m) = st_dados st ++ [d] /\
    mes d = m /\ saldo d = st_saldo (passo st m) /\ aporte d = aporteDe m.
Proof.
  unfold passo, passoMes, aporteDe.
  destruct contribuicaoNoInicio; cbn; eexists; repeat split.
Qed.

Lemma passo_mesAlvo (st : Estado) (m : Z) :
  st_mesAlvo (passo st m) =
  match st_mesAlvo st with
  | None => if (st_saldo (passo st m) >=? meta)%J then Some m else None
  | Some alvo => Some alvo
  end.
Proof.
  unfold passo, passoMes. destruct contribuicaoNoInicio; reflexivity.
Qed.

Lemma apos_saldo_S (n : nat) :
  st_saldo (apos (S n)) =
  novoSaldo contribuicaoNoInicio (st_saldo (apos n))
    (aporteDe (Z.of_nat (S n))) (taxaDe (Z.of_nat (S n))).
Proof. rewrite apos_S. apply passo_saldo. Qed.

Lemma apos_length (n : nat) : List.length (st_dados (apos n)) = S n.
Proof.
  induction n as [|n IH]; [reflexivity|].
  rewrite apos_S. destruct (passo_dados (apos n) (Z.of_nat (S n))) as (d & -> & _).
  rewrite length_app, IH. cbn. lia.
Qed.

(** The record of the last month is the current balance. *)
Lemma apos_last (n : nat) :
  exists d, nth_error (st_dados (apos n)) n = Some d /\
            mes d = Z.of_nat n /\ saldo d = st_saldo (apos n).
Proof.
  destruct n as [|n].
  - eexists. repeat split.
  - rewrite apos_S.
    destruct (passo_dados (apos n) (Z.of_nat (S n))) as (d & -> & Hm & Hs & _).
    exists d. rewrite nth_error_app2 by (rewrite apos_length; lia).
    rewrite apos_length, Nat.sub_diag. auto.
Qed.

(** Records are appended, never rewritten. *)
Lemma apos_prefix (n k : nat) :
  (k <= n)%nat ->
  nth_error (st_dados (apos n)) k = nth_error (st_dados (apos k)) k.
Proof.
  induction n as [|n IH]; intros Hk.
  - now replace k with O by lia.
  - destruct (Nat.eq_dec k (S n)) as [->|Hne]; [reflexivity|].
    rewrite <- IH by lia. rewrite apos_S.
    destruct (passo_dados (apos n) (Z.of_nat (S n))) as (d & -> & _).
    apply nth_error_app1. rewrite apos_length. lia.
Qed.

Lemma apos_record (n k : nat) :
  (k <= n)%nat ->
  exists d, nth_error (st_dados (apos n)) k = Some d /\
            mes d = Z.of_nat k /\ saldo d = st_saldo (apos k).
Proof.
  intros Hk. rewrite (apos_prefix Hk). apply apos_last.
Qed.

Lemma apos_aporte (n k : nat) :
  (1 <= k <= n)%nat ->
  exists d, nth_error (st_dados (apos n)) k = Some d /\
            aporte d = aporteDe (Z.of_nat k).
Proof.
  intros Hk. rewrite (@apos_prefix n k) by lia.
  destruct k as [|k]; [lia|]. rewrite apos_S.
  destruct (passo_dados (apos k) (Z.of_nat (S k))) as (d & -> & _ & _ & Ha).
  exists d. rewrite nth_error_app2 by (rewrite apos_length; lia).
  rewrite apos_length, Nat.sub_diag. auto.
Qed.

(** [mesAlvo] is the first month whose balance reaches the target. *)
Lemma apos_mesAlvo (n : nat) :
  st_mesAlvo (apos n) =
  if (montanteInicial >=? meta)%J then Some 0%Z
  else find (fun m => (st_saldo (apos (Z.to_nat m)) >=? meta)%J) (range1 (Z.of_nat n)).
Proof.
  induction n as [|n IH].
  - cbn. destruct (montanteInicial >=? meta)%J; reflexivity.
  - rewrite apos_S, passo_mesAlvo, IH, <- apos_S, range1_snoc.
    destruct (montanteInicial >=? meta)%J; [reflexivity|].
    rewrite find_append.
    destruct (find _ (range1 (Z.of_nat n))); [reflexivity|].
    cbn [find]. rewrite Nat2Z.id. reflexivity.
Qed.

End Laco.

(** ** The result of [calcularProjecao] *)

Section Projecao.
Context {N : JsNumber}.
Variables (montanteInicial aporteMensal rentabAnual meta anosLimite : num).
Variables (contribuicaoNoInicio usarTaxaReal : bool).
Variables (inflacaoAnual : num) (inflacaoTabela : option (list num)).
Variable (politicaAporte : option PoliticaAporte).

Let resultado :=
  calcularProjecao montanteInicial aporteMensal rentabAnual meta anosLimite
    contribuicaoNoInicio usarTaxaReal inflacaoAnual inflacaoTabela politicaAporte.
Let limite := Z.max 1 (Math_floor (anosLimite * ofZ 12)%J).
Let nominal := (Math_pow (ofZ 1 + rentabAnual) (ofZ 1 / ofZ 12) - ofZ 1)%J.
Let apos :=
  estadoApos montanteInicial aporteMensal nominal meta contribuicaoNoInicio
    usarTaxaReal inflacaoAnual inflacaoTabela (politicaOuConstante politicaAporte).

Lemma limite_pos : (1 <= limite)%Z.
Proof. unfold limite. lia. Qed.

Lemma resultado_dados : dados resultado = st_dados (apos (Z.to_nat limite)).
Proof.
  unfold resultado, calcularProjecao, apos, estadoApos. cbn [dados].
  fold limite. rewrite Z2Nat.id by (pose proof limite_pos; lia). reflexivity.
Qed.

Lemma resultado_mesAlvo : mesAlvo resultado = st_mesAlvo (apos (Z.to_nat limite)).
Proof.
  unfold resultado, calcularProjecao, apos, estadoApos. cbn [mesAlvo].
  fold limite. rewrite Z2Nat.id by (pose proof limite_pos; lia). reflexivity.
Qed.

(** The series has one record per month and the seed: indices 0..limite. *)
Lemma resultado_length : Z.of_nat (List.length (dados resultado)) = (limite + 1)%Z.
Proof.
  rewrite resultado_dados. unfold apos. rewrite apos_length.
  pose proof limite_pos. lia.
Qed.

Lemma resultado_record (m : Z) :
  (0 <= m <= limite)%Z ->
  exists d, index (dados resultado) m = Some d /\
            mes d = m /\ saldo d = st_saldo (apos (Z.to_nat m)).
Proof.
  intros Hm. rewrite resultado_dados.
  assert (Hk : (Z.to_nat m <= Z.to_nat limite)%nat) by lia.
  destruct (apos_record montanteInicial aporteMensal nominal meta
              contribuicaoNoInicio usarTaxaReal inflacaoAnual inflacaoTabela
              (politicaOuConstante politicaAporte) Hk) as (d & Hd & Hmes & Hs).
  exists d. repeat split.
  - rewrite <- (Z2Nat.id m) by lia. rewrite index_of_nat. exact Hd.
  - rewrite Hmes. lia.
  - exact Hs.
Qed.

Lemma resultado_saldoEm (m : Z) :
  (0 <= m <= limite)%Z ->
  saldoEm (dados resultado) m = st_saldo (apos (Z.to_nat m)).
Proof.
  intros Hm. unfold saldoEm.
  destruct (resultado_record Hm) as (d & -> & _ & Hs). exact Hs.
Qed.

End Projecao.

(** C1.  For every month [m] from 1 to the horizon, the record of month [m]
    holds the balance obtained from the record of month [m - 1]: the rate is
    [(1 + taxaMensalNominalConst) / (1 + monthly inflation of m) - 1] when
    [usarTaxaReal], else the constant
    [taxaMensalNominalConst = (1 + rentabAnual)^(1/12) - 1]; with
    [contribuicaoNoInicio] the new balance is
    [(old + contribution) * (1 + rate)], otherwise
    [old * (1 + rate) + contribution]. *)
Theorem calcularProjecao_balance_update :
  forall (N : JsNumber)
         (montanteInicial aporteMensal rentabAnual meta anosLimite : num)
         (contribuicaoNoInicio usarTaxaReal : bool)
         (inflacaoAnual : num) (inflacaoTabela : option (list num))
         (politicaAporte : option PoliticaAporte) (m : Z),
    (1 <= m <= Z.max 1 (Math_floor (anosLimite * ofZ 12)%J))%Z ->
    exists anterior atual : ProjecaoDado,
      index (dados (calcularProjecao montanteInicial aporteMensal rentabAnual meta
                      anosLimite contribuicaoNoInicio usarTaxaReal inflacaoAnual
                      inflacaoTabela politicaAporte)) (m - 1) = Some anterior /\
      index (dados (calcularProjecao montanteInicial aporteMensal rentabAnual meta
                      anosLimite contribuicaoNoInicio usarTaxaReal inflacaoAnual
                      inflacaoTabela politicaAporte)) m = Some atual /\
      aporte atual =
        aporteNoMes m aporteMensal (politicaOuConstante politicaAporte)
          inflacaoAnual inflacaoTabela /\
      let taxaMensalNominalConst :=
        (Math_pow (ofZ 1 + rentabAnual) (ofZ 1 / ofZ 12) - ofZ 1)%J in
      let inflMensal := inflacaoMensalDoMes m inflacaoAnual inflacaoTabela in
      let r :=
        if usarTaxaReal
        then ((ofZ 1 + taxaMensalNominalConst) / (ofZ 1 + inflMensal) - ofZ 1)%J
        else taxaMensalNominalConst in
      saldo atual =
        if contribuicaoNoInicio
        then ((saldo anterior + aporte atual) * (ofZ 1 + r))%J
        else (saldo anterior * (ofZ 1 + r) + aporte atual)%J.
Proof.
  intros N mi am ra meta al cni utr ia it pol m Hm.
  set (nominal := (Math_pow (ofZ 1 + ra) (ofZ 1 / ofZ 12) - ofZ 1)%J).
  assert (Hprev : (0 <= m - 1 <= Z.max 1 (Math_floor (al * ofZ 12)%J))%Z) by lia.
  assert (Hcur : (0 <= m <= Z.max 1 (Math_floor (al * ofZ 12)%J))%Z) by lia.
  destruct (resultado_record mi am ra meta al cni utr ia it pol Hprev)
    as (dp & Hdp & _ & Hsp).
  destruct (resultado_record mi am ra meta al cni utr ia it pol Hcur)
    as (dc & Hdc & _ & Hsc).
  exists dp, dc. split; [exact Hdp|]. split; [exact Hdc|].
  assert (Ha : aporte dc = aporteNoMes m am (politicaOuConstante pol) ia it).
  { rewrite resultado_dados in Hdc.
    assert (Hk : (1 <= Z.to_nat m <= Z.to_nat (Z.max 1 (Math_floor (al * ofZ 12)%J)))%nat)
      by lia.
    destruct (apos_aporte mi am nominal meta cni utr ia it (politicaOuConstante pol) Hk)
      as (d & Hd & Had).
    rewrite <- (Z2Nat.id m) in Hdc at 1 by lia. rewrite index_of_nat in Hdc.
    fold nominal in Hdc. rewrite Hd in Hdc. injection Hdc as <-.
    rewrite Had. now rewrite Z2Nat.id by lia. }
  split; [exact Ha|].
  rewrite Hsc, Hsp, Ha. fold nominal.
  replace (Z.to_nat m) with (S (Z.to_nat (m - 1))) by lia.
  rewrite apos_saldo_S.
  replace (Z.of_nat (S (Z.to_nat (m - 1)))) with m by lia.
  unfold novoSaldo, taxaMensalEfetiva.
  destruct utr, cni; reflexivity.
Qed.

(** The first scenario of the regression suite ([testCases.ts]): the balance
    of month 1 comes from the seed record. *)
Lemma calcularProjecao_balance_update_witness :
  exists anterior atual : @ProjecaoDado IEEE.number,
    index (dados (@calcularProjecao IEEE.number 0%float 100%float 0%float 1200%float
                    2%float true false 0%float None None)) (1 - 1) = Some anterior /\
    index (dados (@calcularProjecao IEEE.number 0%float 100%float 0%float 1200%float
                    2%float true false 0%float None None)) 1 = Some atual /\
    aporte atual = 100%float /\
    saldo atual = PrimFloat.mul (PrimFloat.add (saldo anterior) (aporte atual)) 1%float.
Proof.
  refine (@calcularProjecao_balance_update IEEE.number
            0%float 100%float 0%float 1200%float 2%float true false 0%float
            None None 1%Z _).
  vm_compute. split; discriminate.
Defined.

(** C3.  [mesAlvo] is 0 when the seed balance already is at least [meta].
    Otherwise it is the smallest month [m] of 1..horizon whose recorded
    balance is at least [meta], whatever the balances of the later months
    are, and [null] exactly when no month of 1..horizon qualifies.  As a
    program: the first hit of [find] over the months in increasing order. *)
Theorem calcularProjecao_mesAlvo_first :
  forall (N : JsNumber)
         (montanteInicial aporteMensal rentabAnual meta anosLimite : num)
         (contribuicaoNoInicio usarTaxaReal : bool)
         (inflacaoAnual : num) (inflacaoTabela : option (list num))
         (politicaAporte : option PoliticaAporte),
    let r := calcularProjecao montanteInicial aporteMensal rentabAnual meta anosLimite
               contribuicaoNoInicio usarTaxaReal inflacaoAnual inflacaoTabela
               politicaAporte in
    let limite := Z.max 1 (Math_floor (anosLimite * ofZ 12)%J) in
    let atinge (m : Z) := (saldoEm (dados r) m >=? meta)%J in
    (mesAlvo r =
       if (montanteInicial >=? meta)%J then Some 0%Z else find atinge (range1 limite)) /\
    ((montanteInicial >=? meta)%J = true -> mesAlvo r = Some 0%Z) /\
    ((montanteInicial >=? meta)%J = false ->
     (forall m, mesAlvo r = Some m <->
                (1 <= m <= limite)%Z /\ atinge m = true /\
                (forall k, (1 <= k < m)%Z -> atinge k = false)) /\
     (mesAlvo r = None <-> forall k, (1 <= k <= limite)%Z -> atinge k = false)).
Proof.
  intros N mi am ra meta al cni utr ia it pol r limite atinge.
  assert (Hfind : mesAlvo r =
                  if (mi >=? meta)%J then Some 0%Z else find atinge (range1 limite)).
  { unfold r. rewrite resultado_mesAlvo, apos_mesAlvo.
    destruct (mi >=? meta)%J; [reflexivity|].
    rewrite Z2Nat.id by lia.
    apply find_ext_In. intros m Hm. apply range1_In in Hm.
    unfold atinge, r. rewrite resultado_saldoEm by (fold limite; lia). reflexivity. }
  split; [exact Hfind|]. split.
  - intros Hseed. now rewrite Hfind, Hseed.
  - intros Hseed. rewrite Hfind, Hseed. split.
    + intros m. rewrite <- (Z2Nat.id limite) at 1 2 by (unfold limite; lia).
      apply find_range1_Some.
    + apply find_range1_None.
Qed.

(** A month that reaches the target keeps [mesAlvo] although the balance
    falls below the target afterwards: contributions 100, -200, 400, ... at a
    zero rate give the balances 100, -100, 300, ... and a target of 50 is
    reached in month 1. *)
Example mesAlvo_kept_when_balance_falls :
  let r := @calcularProjecao IEEE.number 0%float 100%float 0%float 50%float
             1%float true false 0%float None
             (Some (@mensal_pct IEEE.number (-3)%float)) in
  mesAlvo r = Some 1%Z /\
  saldoEm (dados r) 1 = 100%float /\
  saldoEm (dados r) 2 = (-100)%float /\
  PrimFloat.leb 50 (saldoEm (dados r) 2) = false.
Proof. vm_compute. repeat split. Qed.

(** ** Inflation schedule *)

Lemma nth_error_last {A : Type} (l : list A) (d : A) :
  l <> [] -> nth_error l (List.length l - 1) = Some (last l d).
Proof.
  induction l as [|a l IH]; intros Hne; [congruence|].
  destruct l as [|b l]; [reflexivity|].
  cbn [List.length last]. replace (S (S (List.length l)) - 1)%nat
    with (S (List.length (b :: l) - 1)) by (cbn; lia).
  cbn [nth_error]. apply IH. discriminate.
Qed.

(** C7.  For every year index of at least 1, [inflacaoAnualDoAno] returns the
    default rate when the schedule is absent or empty, the entry
    [tabela[anoIndex - 1]] when that index is within the schedule, and the
    last entry of the schedule otherwise. *)
Theorem inflacaoAnualDoAno_lookup :
  forall (N : JsNumber) (anoIndex : Z) (inflacaoPadrao : num)
         (tabela : option (list num)),
    (1 <= anoIndex)%Z ->
    inflacaoAnualDoAno anoIndex inflacaoPadrao tabela =
    Some
      match tabela with
      | None => inflacaoPadrao
      | Some [] => inflacaoPadrao
      | Some t =>
          if (anoIndex - 1 <? Z.of_nat (List.length t))%Z
          then nth (Z.to_nat (anoIndex - 1)) t inflacaoPadrao
          else last t inflacaoPadrao
      end.
Proof.
  intros N a p tab Ha. unfold inflacaoAnualDoAno.
  destruct tab as [t|]; [|reflexivity].
  destruct t as [|x t]; [reflexivity|].
  set (l := x :: t).
  destruct (Z.eqb_spec (Z.of_nat (List.length l)) 0) as [E|_]; [cbn in E; lia|].
  destruct (Z.ltb_spec (a - 1) (Z.of_nat (List.length l))) as [Hlt|Hge].
  - unfold index. destruct (Z.ltb_spec (a - 1) 0); [lia|].
    apply nth_error_nth'. lia.
  - replace (Z.of_nat (List.length l) - 1)%Z
      with (Z.of_nat (List.length l - 1)) by (unfold l; cbn [List.length]; lia).
    rewrite index_of_nat. apply nth_error_last. discriminate.
Qed.

(** With the schedule [0.1, 0.0] of the regression suite: year 1 reads the
    first entry, and year 5, beyond the schedule, its last entry. *)
Lemma inflacaoAnualDoAno_lookup_witness :
  @inflacaoAnualDoAno IEEE.number 1 0.05%float (Some [0.1; 0.0]%float) = Some 0.1%float /\
  @inflacaoAnualDoAno IEEE.number 5 0.05%float (Some [0.1; 0.0]%float) = Some 0.0%float /\
  @inflacaoAnualDoAno IEEE.number 5 0.05%float (Some []) = Some 0.05%float /\
  @inflacaoAnualDoAno IEEE.number 5 0.05%float None = Some 0.05%float.
Proof.
  split; [|split; [|split]].
  - refine (@inflacaoAnualDoAno_lookup IEEE.number 1 0.05%float (Some [0.1; 0.0]%float) _). lia.
  - refine (@inflacaoAnualDoAno_lookup IEEE.number 5 0.05%float (Some [0.1; 0.0]%float) _). lia.
  - refine (@inflacaoAnualDoAno_lookup IEEE.number 5 0.05%float (Some []) _). lia.
  - refine (@inflacaoAnualDoAno_lookup IEEE.number 5 0.05%float None _). lia.
Defined.

(** ** Laws of the exact numbers *)

Lemma Qc_one_neq_zero : Q2Qc 1 <> Q2Qc 0.
Proof. intros E. apply (f_equal this) in E. discriminate E. Qed.

Ltac exact_unfold :=
  cbv [ofZ lit add sub mul div Math_pow Exact.number Exact.q Exact.lift2
       Exact.pow Exact.quociente].

Ltac exact_decide :=
  repeat match goal with
    | |- context [Qc_eq_dec ?a ?b] =>
        let E := fresh "E" in
        destruct (Qc_eq_dec a b) as [E|E];
        try (apply (f_equal this) in E; discriminate E);
        try (now elim E)
    end.

Lemma Exact_unit_laws : UnitLaws Exact.number.
Proof.
  split.
  - intros [x|]; exact_unfold; [|reflexivity]. f_equal. apply Qcmult_1_r.
  - intros x. exact_unfold. exact_decide; reflexivity.
  - intros x. exact_unfold. exact_decide; destruct x as [x|]; exact_decide; reflexivity.
Qed.

Lemma Exact_laws : ExactLaws Exact.number.
Proof.
  split.
  - exact Exact_unit_laws.
  - intros [x|]; exact_unfold; [|reflexivity]. f_equal. apply Qcplus_0_l.
  - intros [x|]; exact_unfold; [|reflexivity]. f_equal. apply Qcplus_0_r.
  - intros [x|]; exact_unfold; [|reflexivity]. f_equal. apply Qcmult_1_l.
  - exact_unfold. f_equal; try (apply Qc_is_canon; reflexivity).
  - exact_unfold. exact_decide; reflexivity.
  - intros [x|] [y|] [z|]; exact_unfold; try reflexivity. f_equal. ring.
  - intros n Hn. exact_unfold. f_equal. apply Qc_is_canon. cbn [this Q2Qc Qcplus].
    rewrite !Qred_correct. rewrite inject_Z_plus. reflexivity.
Qed.

(** ** Laws of binary64 *)

(** Multiplying by one is exact.  The product of the mantissa [m] by that of
    one, [2^52], is [m] followed by 52 zero bits; rounding shifts them out
    with nothing lost. *)
Lemma digits2_shift52 (m : positive) (e : Z) :
  (Zdigits2 (Zpos (Pos.mul 4503599627370496 m)) + (e + -52)
   = Zpos (digits2_pos m) + e)%Z.
Proof.
  cbn [Pos.mul Zdigits2 digits2_pos].
  rewrite !Pos2Z.inj_succ. lia.
Qed.

Lemma SF64mul_one (s : spec_float) :
  valid_binary s = true ->
  SF64mul s (S754_finite false 4503599627370496 (-52)) = s.
Proof.
  destruct s as [b|b| |b m e]; cbn [SF64mul SFmul valid_binary]; intros Hv.
  - now rewrite xorb_false_r.
  - now rewrite xorb_false_r.
  - reflexivity.
  - unfold SF64mul, SFmul.
    apply andb_true_iff in Hv. destruct Hv as [Hcan Hle].
    unfold canonical_mantissa in Hcan. apply Z.eqb_eq in Hcan.
    rewrite xorb_false_r, Pos.mul_comm.
    unfold binary_round_aux, shr_fexp.
    rewrite digits2_shift52, Hcan.
    replace (e - (e + -52))%Z with 52%Z by lia.
    cbn [Pos.mul shr_record_of_loc shr].
    cbv [iter_pos shr_1 orb].
    cbn [shr_m loc_of_shr_record round_nearest_even Zdigits2].
    replace (e + -52 + 52)%Z with e by lia.
    rewrite Hcan, Z.sub_diag. cbn [shr shr_m].
    now rewrite Hle.
Qed.

Lemma IEEE_mul_one (x : float) : PrimFloat.mul x 1 = x.
Proof.
  apply Prim2SF_inj. rewrite mul_spec.
  change (Prim2SF 1) with (S754_finite false 4503599627370496 (-52)).
  apply SF64mul_one, Prim2SF_valid.
Qed.

Lemma IEEE_unit_laws : UnitLaws IEEE.number.
Proof.
  split.
  - intros x. change (PrimFloat.mul x 1 = x). apply IEEE_mul_one.
  - intros x. reflexivity.
  - intros x. reflexivity.
Qed.

(** ** Contribution policies *)

(** The annual policies read the month only through the number of whole
    years elapsed, [floor(mes / 12)]. *)
Lemma aporteNoMes_anual_by_year (N : JsNumber) (m m' : Z) (base : num)
    (politica : PoliticaAporte) (ia : num) (it : option (list num)) :
  (m / 12 = m' / 12)%Z ->
  (forall g, politica <> mensal_pct g) ->
  aporteNoMes m base politica ia it = aporteNoMes m' base politica ia it.
Proof.
  intros E Hp. unfold aporteNoMes. rewrite E.
  destruct politica; try reflexivity. now elim (Hp mensalPct).
Qed.

(** C2.  Under [anual_pct] with rate [g] the contribution of month [m] is
    [base * (1 + g)^floor(m / 12)]: it is [base] for every month 1..11 and
    [base * (1 + g)] at month 12, and it changes only at months that are
    multiples of 12. *)
Theorem aporteNoMes_anual_pct_step :
  forall (N : JsNumber), UnitLaws N ->
  forall (base g inflacaoAnual : num) (inflacaoTabela : option (list num)),
    (forall m : Z,
        aporteNoMes m base (anual_pct g) inflacaoAnual inflacaoTabela =
        (base * Math_pow (ofZ 1 + g) (ofZ (m / 12)))%J) /\
    (forall m : Z, (1 <= m <= 11)%Z ->
        aporteNoMes m base (anual_pct g) inflacaoAnual inflacaoTabela = base) /\
    aporteNoMes 12 base (anual_pct g) inflacaoAnual inflacaoTabela
      = (base * (ofZ 1 + g))%J /\
    (forall m : Z, (1 <= m)%Z -> (m mod 12 <> 0)%Z ->
        aporteNoMes m base (anual_pct g) inflacaoAnual inflacaoTabela =
        aporteNoMes (m - 1) base (anual_pct g) inflacaoAnual inflacaoTabela).
Proof.
  intros N L base g ia it. split; [reflexivity|]. split; [|split].
  - intros m Hm. cbn. rewrite Z.div_small by lia.
    now rewrite (pow_0_r L), (mul_1_r L).
  - cbn. change (12 / 12)%Z with 1%Z. now rewrite (pow_1_r L).
  - intros m Hm Hmod. apply aporteNoMes_anual_by_year; [|discriminate].
    pose proof (Z.div_mod m 12 ltac:(lia)).
    pose proof (Z.mod_pos_bound m 12 ltac:(lia)).
    apply (Z.div_unique (m - 1) 12 (m / 12) (m mod 12 - 1)); lia.
Qed.

(** The scenario "Reajuste em 12 (não em 11)" of the regression suite, in
    binary64: a base of 100 growing 10% a year. *)
Lemma aporteNoMes_anual_pct_step_witness :
  (forall m : Z,
      @aporteNoMes IEEE.number m 100%float (@anual_pct IEEE.number 0.1%float)
        0%float None =
      PrimFloat.mul 100 (IEEE.pow (PrimFloat.add 1 0.1) (@ofZ IEEE.number (m / 12)))) /\
  (forall m : Z, (1 <= m <= 11)%Z ->
      @aporteNoMes IEEE.number m 100%float (@anual_pct IEEE.number 0.1%float)
        0%float None = 100%float) /\
  @aporteNoMes IEEE.number 12 100%float (@anual_pct IEEE.number 0.1%float) 0%float None
    = PrimFloat.mul 100 (PrimFloat.add 1 0.1) /\
  (forall m : Z, (1 <= m)%Z -> (m mod 12 <> 0)%Z ->
      @aporteNoMes IEEE.number m 100%float (@anual_pct IEEE.number 0.1%float)
        0%float None =
      @aporteNoMes IEEE.number (m - 1) 100%float (@anual_pct IEEE.number 0.1%float)
        0%float None).
Proof.
  exact (@aporteNoMes_anual_pct_step IEEE.number IEEE_unit_laws
           100%float 0.1%float 0%float None).
Defined.

(** ** Required contribution *)

(** The final-balance read of [atingeMetaComAporte] on a series produced by
    [calcularProjecao]: the record of month [nMeses] when the series has one,
    else its last record, that of month [limite]. *)
Lemma saldoFinal_resultado (N : JsNumber)
    (mi am ra meta al : num) (cni utr : bool) (ia : num) (it : option (list num))
    (pol : option PoliticaAporte) (nMeses : Z) :
  let r := calcularProjecao mi am ra meta al cni utr ia it pol in
  let limite := Z.max 1 (Math_floor (al * ofZ 12)%J) in
  saldoFinal (dados r) nMeses =
  Some (if ((0 <=? nMeses) && (nMeses <=? limite))%Z
        then saldoEm (dados r) nMeses
        else saldoEm (dados r) limite).
Proof.
  intros r limite. unfold saldoFinal.
  pose proof (resultado_length mi am ra meta al cni utr ia it pol) as Hlen.
  fold r limite in Hlen.
  destruct ((0 <=? nMeses) && (nMeses <=? limite))%Z eqn:Hin.
  - apply andb_true_iff in Hin. destruct Hin as [H0 Hl].
    apply Z.leb_le in H0. apply Z.leb_le in Hl.
    destruct (resultado_record mi am ra meta al cni utr ia it pol (conj H0 Hl))
      as (d & Hd & _).
    fold r in Hd. unfold saldoEm. rewrite Hd. reflexivity.
  - rewrite index_out.
    2:{ apply andb_false_iff in Hin. destruct Hin as [H|H].
        - apply Z.leb_gt in H. lia.
        - apply Z.leb_gt in H. fold limite in H. lia. }
    rewrite Hlen. replace (limite + 1 - 1)%Z with limite by lia.
    assert (Hl : (0 <= limite <= limite)%Z) by (unfold limite; lia).
    destruct (resultado_record mi am ra meta al cni utr ia it pol Hl) as (d & Hd & _).
    fold r limite in Hd. unfold saldoEm. rewrite Hd. reflexivity.
Qed.

Lemma atingeMetaComAporte_total (N : JsNumber)
    (mi ra anos meta : num) (cni utr : bool) (ia : num) (it : option (list num))
    (pol : option PoliticaAporte) (A : num) :
  exists b, atingeMetaComAporte mi ra anos meta cni utr ia it pol A = Some b.
Proof.
  unfold atingeMetaComAporte.
  destruct (match mesAlvo _ with Some _ => _ | None => _ end); [now eexists|].
  rewrite saldoFinal_resultado. now eexists.
Qed.

Lemma dobrarLimite_total (N : JsNumber) (atinge : num -> option bool) :
  (forall x, exists b, atinge x = Some b) ->
  forall restantes hi, exists hi1, dobrarLimite atinge restantes hi = Some hi1.
Proof.
  intros Htot restantes. induction restantes as [|r IH]; intros hi; cbn.
  - destruct (Htot hi) as ([|] & ->); now eexists.
  - destruct (Htot hi) as ([|] & ->); [now eexists|].
    destruct (hi * ofZ 2 >? ofZ 1000000000)%J; [now eexists|apply IH].
Qed.

(** Every bisection step moves [hi] only to a midpoint that satisfies the
    predicate, so a sufficient [hi] stays sufficient. *)
Lemma bissecaoAporte_sufficient (N : JsNumber) (atinge : num -> option bool) :
  (forall x, exists b, atinge x = Some b) ->
  forall iteracoes lo hi,
    atinge hi = Some true ->
    exists v, bissecaoAporte atinge iteracoes lo hi = Some v /\ atinge v = Some true.
Proof.
  intros Htot iteracoes. induction iteracoes as [|i IH]; intros lo hi Hhi; cbn.
  - now exists hi.
  - destruct (Htot ((lo + hi) / ofZ 2)%J) as ([|] & Hmid); rewrite Hmid.
    + now apply IH.
    + now apply IH.
Qed.

Lemma bissecaoAporte_total (N : JsNumber) (atinge : num -> option bool) :
  (forall x, exists b, atinge x = Some b) ->
  forall iteracoes lo hi, exists v, bissecaoAporte atinge iteracoes lo hi = Some v.
Proof.
  intros Htot iteracoes. induction iteracoes as [|i IH]; intros lo hi; cbn.
  - now eexists.
  - destruct (Htot ((lo + hi) / ofZ 2)%J) as ([|] & ->); apply IH.
Qed.

(** C8.  If [atingeMetaComAporte] holds of the upper bound left by the
    doubling phase, it holds of the value [aporteNecessario] returns: the 80
    bisection steps replace [hi] only by midpoints that satisfy it. *)
Theorem aporteNecessario_sufficient :
  forall (N : JsNumber)
         (montanteInicial rentabAnual anos meta : num)
         (contribuicaoNoInicio usarTaxaReal : bool)
         (inflacaoAnual : num) (inflacaoTabela : option (list num))
         (politicaAporte : option PoliticaAporte) (hi : num),
    dobrarLimite
      (atingeMetaComAporte montanteInicial rentabAnual anos meta contribuicaoNoInicio
         usarTaxaReal inflacaoAnual inflacaoTabela politicaAporte)
      50
      (Math_max (ofZ 100) (meta / ofZ (Z.max 1 (Math_round (anos * ofZ 12)%J)))%J)
      = Some hi ->
    atingeMetaComAporte montanteInicial rentabAnual anos meta contribuicaoNoInicio
      usarTaxaReal inflacaoAnual inflacaoTabela politicaAporte hi = Some true ->
    exists A,
      aporteNecessario montanteInicial rentabAnual anos meta contribuicaoNoInicio
        usarTaxaReal inflacaoAnual inflacaoTabela politicaAporte = Some A /\
      atingeMetaComAporte montanteInicial rentabAnual anos meta contribuicaoNoInicio
        usarTaxaReal inflacaoAnual inflacaoTabela politicaAporte A = Some true.
Proof.
  intros N mi ra anos meta cni utr ia it pol hi Hdobra Hhi.
  unfold aporteNecessario. rewrite Hdobra.
  apply bissecaoAporte_sufficient; [|exact Hhi].
  intros x. apply atingeMetaComAporte_total.
Qed.

(** The scenario "Aporte necessário (taxa zero)" of the regression suite:
    no doubling is needed from 100, and the result reaches 12000 in 120
    months. *)
Lemma aporteNecessario_sufficient_witness :
  exists A,
    @aporteNecessario IEEE.number 0%float 0%float 10%float 12000%float true false
      0%float None None = Some A /\
    @atingeMetaComAporte IEEE.number 0%float 0%float 10%float 12000%float true false
      0%float None None A = Some true.
Proof.
  refine (@aporteNecessario_sufficient IEEE.number 0%float 0%float 10%float
            12000%float true false 0%float None None 100%float _ _).
  - vm_compute. reflexivity.
  - vm_compute. reflexivity.
Defined.

(** C10.  The final-balance read of [aporteNecessario] never fails.  The
    series of [calcularProjecao] has the records 0..limite with
    [limite = max(1, floor(anos * 12))], the seed included, so its last
    record exists; when [nMeses = max(1, round(anos * 12))] is beyond
    [limite] the read [dados[nMeses]] is [undefined] and the balance of the
    last record is used.  Hence the predicate and the solver return for every
    input. *)
Theorem aporteNecessario_lookup_total :
  forall (N : JsNumber)
         (montanteInicial rentabAnual anos meta : num)
         (contribuicaoNoInicio usarTaxaReal : bool)
         (inflacaoAnual : num) (inflacaoTabela : option (list num))
         (politicaAporte : option PoliticaAporte) (A : num),
    let nMeses := Z.max 1 (Math_round (anos * ofZ 12)%J) in
    let limite := Z.max 1 (Math_floor (anos * ofZ 12)%J) in
    let r := calcularProjecao montanteInicial A rentabAnual meta anos
               contribuicaoNoInicio usarTaxaReal inflacaoAnual inflacaoTabela
               (Some (politicaOuConstante politicaAporte)) in
    Z.of_nat (List.length (dados r)) = (limite + 1)%Z /\
    (exists ultimo,
        index (dados r) (Z.of_nat (List.length (dados r)) - 1) = Some ultimo /\
        ((limite < nMeses)%Z ->
         index (dados r) nMeses = None /\
         saldoFinal (dados r) nMeses = Some (saldo ultimo))) /\
    (exists sf, saldoFinal (dados r) nMeses = Some sf) /\
    (exists b,
        atingeMetaComAporte montanteInicial rentabAnual anos meta contribuicaoNoInicio
          usarTaxaReal inflacaoAnual inflacaoTabela politicaAporte A = Some b) /\
    (exists v,
        aporteNecessario montanteInicial rentabAnual anos meta contribuicaoNoInicio
          usarTaxaReal inflacaoAnual inflacaoTabela politicaAporte = Some v).
Proof.
  intros N mi ra anos meta cni utr ia it pol A nMeses limite r.
  pose proof (resultado_length mi A ra meta anos cni utr ia it
                (Some (politicaOuConstante pol))) as Hlen.
  fold r limite in Hlen.
  assert (Hl : (0 <= limite <= limite)%Z) by (unfold limite; lia).
  destruct (resultado_record mi A ra meta anos cni utr ia it
              (Some (politicaOuConstante pol)) Hl) as (d & Hd & _).
  fold r limite in Hd.
  split; [exact Hlen|]. split; [|split; [|split]].
  - exists d. rewrite Hlen. replace (limite + 1 - 1)%Z with limite by lia.
    split; [exact Hd|]. intros Hgt.
    assert (Hout : index (dados r) nMeses = None) by (apply index_out; lia).
    split; [exact Hout|].
    unfold saldoFinal. rewrite Hout, Hlen.
    replace (limite + 1 - 1)%Z with limite by lia. now rewrite Hd.
  - unfold r. rewrite saldoFinal_resultado. now eexists.
  - apply atingeMetaComAporte_total.
  - unfold aporteNecessario.
    destruct (@dobrarLimite_total N
                (atingeMetaComAporte mi ra anos meta cni utr ia it pol)
                (fun x => atingeMetaComAporte_total mi ra anos meta cni utr ia it pol x)
                50
                (Math_max (ofZ 100) (meta / ofZ (Z.max 1 (Math_round (anos * ofZ 12)%J)))%J))
      as (hi1 & ->).
    apply bissecaoAporte_total. intros x. apply atingeMetaComAporte_total.
Qed.

(** A horizon of 1.05 years: [round(12.6) = 13] is beyond the last index
    [floor(12.6) = 12], the read at 13 is [undefined], and the balance of
    record 12 is used. *)
Example nMeses_beyond_series :
  let r := @calcularProjecao IEEE.number 0%float 100%float 0%float 5000%float
             1.05%float true false 0%float None None in
  @Math_round IEEE.number (PrimFloat.mul 1.05 12) = 13%Z /\
  @Math_floor IEEE.number (PrimFloat.mul 1.05 12) = 12%Z /\
  List.length (dados r) = 13%nat /\
  option_map saldo (index (dados r) 13) = None /\
  saldoFinal (dados r) 13 = Some 1200%float.
Proof. vm_compute. repeat split. Qed.

(** ** Required rate *)

Lemma last_cons_default {A : Type} (a d : A) (l : list A) :
  last (a :: l) d = last l a.
Proof.
  revert a d. induction l as [|b l IH]; intros a d; [reflexivity|].
  change (last (a :: b :: l) d) with (last (b :: l) d).
  now rewrite !IH.
Qed.

Section BuscaTaxa.
Context {N : JsNumber}.
Variables (saldoFinalDe : num -> num) (meta : num).

(** [found] ends as the last qualifying candidate, if any. *)
Lemma buscaTaxa_last (iteracoes : nat) :
  forall lo hi found,
    buscaTaxa saldoFinalDe meta iteracoes lo hi found =
    last (map Some (filter (qualifica saldoFinalDe meta)
                      (candidatos saldoFinalDe meta iteracoes lo hi)))
         found.
Proof.
  induction iteracoes as [|i IH]; intros lo hi found; [reflexivity|].
  cbn [buscaTaxa candidatos].
  destruct (Number_isFinite (saldoFinalDe ((lo + hi) / ofZ 2)%J)) eqn:Hfin; cbn [negb].
  - destruct (saldoFinalDe ((lo + hi) / ofZ 2) >=? meta)%J eqn:Hge; cbn [filter].
    + replace (qualifica saldoFinalDe meta ((lo + hi) / ofZ 2)%J) with true
        by (unfold qualifica; now rewrite Hfin, Hge).
      cbn [map]. rewrite last_cons_default. apply IH.
    + replace (qualifica saldoFinalDe meta ((lo + hi) / ofZ 2)%J) with false
        by (unfold qualifica; now rewrite Hfin, Hge).
      apply IH.
  - cbn [filter].
    replace (qualifica saldoFinalDe meta ((lo + hi) / ofZ 2)%J) with false
      by (unfold qualifica; now rewrite Hfin).
    reflexivity.
Qed.

Lemma candidatos_length (iteracoes : nat) :
  forall lo hi,
    (List.length (candidatos saldoFinalDe meta iteracoes lo hi) <= iteracoes)%nat.
Proof.
  induction iteracoes as [|i IH]; intros lo hi; cbn [candidatos]; [cbn; lia|].
  destruct (negb _); [cbn; lia|].
  destruct (_ >=? _)%J; cbn [List.length]; apply le_n_S, IH.
Qed.

Lemma candidatos_first (iteracoes : nat) (lo hi : num) :
  exists resto,
    candidatos saldoFinalDe meta (S iteracoes) lo hi = ((lo + hi) / ofZ 2)%J :: resto.
Proof.
  cbn [candidatos].
  destruct (negb _); [now eexists|]. destruct (_ >=? _)%J; now eexists.
Qed.

(** The search stops at the first candidate whose balance is not finite. *)
Lemma candidatos_stop (iteracoes : nat) :
  forall lo hi l1 c l2,
    candidatos saldoFinalDe meta iteracoes lo hi = l1 ++ c :: l2 ->
    Number_isFinite (saldoFinalDe c) = false -> l2 = [].
Proof.
  induction iteracoes as [|i IH]; intros lo hi l1 c l2; cbn [candidatos].
  - intros E. now destruct l1.
  - destruct (Number_isFinite (saldoFinalDe ((lo + hi) / ofZ 2)%J)) eqn:Hfin; cbn [negb].
    + destruct (_ >=? _)%J; intros E Hc;
        (destruct l1 as [|a l1]; cbn in E; injection E as E1 E2;
         [subst c; congruence | eapply IH; eauto]).
    + intros E _. destruct l1 as [|a l1]; cbn in E; injection E as E1 E2.
      * now subst l2.
      * now destruct l1.
Qed.

Lemma last_map_Some_default (l : list num) (a : num) :
  exists x, last (map Some l) (Some a) = Some x.
Proof.
  revert a. induction l as [|b l IH]; intros a; [now exists a|].
  cbn [map]. rewrite last_cons_default. apply IH.
Qed.

Lemma last_map_Some_None (l : list num) :
  last (map Some l) None = None <-> l = [].
Proof.
  split; [|now intros ->].
  destruct l as [|a l]; [reflexivity|].
  cbn [map]. rewrite last_cons_default.
  destruct (last_map_Some_default l a) as (x & ->). discriminate.
Qed.

Lemma last_map_Some_In (l : list num) (found : option num) (x : num) :
  last (map Some l) found = Some x -> found = Some x \/ In x l.
Proof.
  revert found. induction l as [|a l IH]; intros found; cbn [map].
  - cbn. auto.
  - rewrite last_cons_default. intros H. apply IH in H.
    destruct H as [H|H]; [injection H as ->; right; now left|right; now right].
Qed.

Lemma buscaTaxa_None (iteracoes : nat) (lo hi : num) :
  buscaTaxa saldoFinalDe meta iteracoes lo hi None = None <->
  (forall c, In c (candidatos saldoFinalDe meta iteracoes lo hi) ->
             qualifica saldoFinalDe meta c = false).
Proof.
  rewrite buscaTaxa_last, last_map_Some_None. split.
  - intros E c Hc. destruct (qualifica saldoFinalDe meta c) eqn:Hq; [|reflexivity].
    assert (Hin : In c (filter (qualifica saldoFinalDe meta)
                          (candidatos saldoFinalDe meta iteracoes lo hi)))
      by (apply filter_In; auto).
    rewrite E in Hin. destruct Hin.
  - intros Hall.
    destruct (filter _ _) as [|c l] eqn:E; [reflexivity|].
    assert (Hin : In c (filter (qualifica saldoFinalDe meta)
                          (candidatos saldoFinalDe meta iteracoes lo hi)))
      by (rewrite E; now left).
    apply filter_In in Hin. destruct Hin as [Hin Hq].
    rewrite (Hall c Hin) in Hq. discriminate.
Qed.

Lemma buscaTaxa_Some (iteracoes : nat) (lo hi found : num) :
  buscaTaxa saldoFinalDe meta iteracoes lo hi None = Some found ->
  In found (candidatos saldoFinalDe meta iteracoes lo hi) /\
  qualifica saldoFinalDe meta found = true.
Proof.
  rewrite buscaTaxa_last. intros H. apply last_map_Some_In in H.
  destruct H as [H|H]; [discriminate|]. now apply filter_In in H.
Qed.

End BuscaTaxa.

(** The two definitions with their local constants written out. *)
Lemma taxaNecessaria_eq (N : JsNumber)
    (mi am anos meta : num) (cni utr : bool) (ia : num) (it : option (list num))
    (pol : option PoliticaAporte) :
  taxaNecessaria mi am anos meta cni utr ia it pol =
  match
    buscaTaxa
      (saldoFinalComTaxa mi am (Z.max 1 (Math_round (anos * ofZ 12)%J)) cni utr ia it
         (politicaOuConstante pol))
      meta 160 (lit (-9 # 10)) (ofZ 1) None
  with
  | None => None
  | Some found => Some (toAnualNominal utr (inflacaoMediaAnual ia it) found)
  end.
Proof. reflexivity. Qed.

Lemma candidatosTaxa_eq (N : JsNumber)
    (mi am anos meta : num) (cni utr : bool) (ia : num) (it : option (list num))
    (pol : option PoliticaAporte) :
  candidatosTaxa mi am anos meta cni utr ia it pol =
  candidatos
    (saldoFinalComTaxa mi am (Z.max 1 (Math_round (anos * ofZ 12)%J)) cni utr ia it
       (politicaOuConstante pol))
    meta 160 (lit (-9 # 10)) (ofZ 1).
Proof. reflexivity. Qed.

(** C5.  [taxaNecessaria] returns [null] exactly when none of the midpoints
    it evaluated gave a finite final balance of at least [meta].  At most 160
    midpoints are evaluated, the first being the middle of [-0.9, 1.0]; a
    midpoint whose balance is not finite is the last one evaluated (the loop
    is left), and the function returns in every case, [null] being its only
    failure value. *)
Theorem taxaNecessaria_null_iff :
  forall (N : JsNumber)
         (montanteInicial aporteMensal anos meta : num)
         (contribuicaoNoInicio usarTaxaReal : bool)
         (inflacaoAnual : num) (inflacaoTabela : option (list num))
         (politicaAporte : option PoliticaAporte),
    let saldoFinalDe :=
      saldoFinalComTaxa montanteInicial aporteMensal
        (Z.max 1 (Math_round (anos * ofZ 12)%J)) contribuicaoNoInicio usarTaxaReal
        inflacaoAnual inflacaoTabela (politicaOuConstante politicaAporte) in
    let avaliados :=
      candidatosTaxa montanteInicial aporteMensal anos meta contribuicaoNoInicio
        usarTaxaReal inflacaoAnual inflacaoTabela politicaAporte in
    (taxaNecessaria montanteInicial aporteMensal anos meta contribuicaoNoInicio
       usarTaxaReal inflacaoAnual inflacaoTabela politicaAporte = None <->
     forall c, In c avaliados -> qualifica saldoFinalDe meta c = false) /\
    (List.length avaliados <= 160)%nat /\
    (exists resto, avaliados = ((lit (-9 # 10) + ofZ 1) / ofZ 2)%J :: resto) /\
    (forall l1 c l2, avaliados = l1 ++ c :: l2 ->
       Number_isFinite (saldoFinalDe c) = false -> l2 = []).
Proof.
  intros N mi am anos meta cni utr ia it pol sf avaliados.
  subst avaliados. rewrite candidatosTaxa_eq, taxaNecessaria_eq. fold sf.
  split; [|split; [|split]].
  - pose proof (buscaTaxa_None sf meta 160 (lit (-9 # 10)) (ofZ 1)) as Hn.
    destruct (buscaTaxa sf meta 160 (lit (-9 # 10)) (ofZ 1) None) as [found|].
    + split; [discriminate|]. intros Hall. apply Hn in Hall. discriminate Hall.
    + split; [intros _; apply Hn; reflexivity|reflexivity].
  - exact (candidatos_length sf meta 160 (lit (-9 # 10)) (ofZ 1)).
  - exact (candidatos_first sf meta 159 (lit (-9 # 10)) (ofZ 1)).
  - exact (candidatos_stop sf meta 160 (lit (-9 # 10)) (ofZ 1)).
Qed.

(** Ten a month for one year cannot reach a million at any candidate rate:
    the result is [null]. *)
Example taxaNecessaria_unreachable :
  @taxaNecessaria IEEE.number 0%float 10%float 1%float 1000000%float true false
    0%float None None = None.
Proof. vm_compute. reflexivity. Qed.

(** A balance that overflows at the first midpoint ends the search at once:
    one candidate is evaluated and the result is [null]. *)
Example taxaNecessaria_overflow :
  @taxaNecessaria IEEE.number 1.5e308%float 0%float 1%float 1%float true false
    0%float None None = None /\
  List.length (@candidatosTaxa IEEE.number 1.5e308%float 0%float 1%float 1%float true
                 false 0%float None None) = 1%nat.
Proof. vm_compute. split; reflexivity. Qed.

(** C6.  When [taxaNecessaria] returns a number, it is the annual figure of
    the monthly rate found, the last qualifying midpoint:
    [rAnualReal = (1 + rMensal)^12 - 1], converted with
    [(1 + rAnualReal) * (1 + m) - 1] when [usarTaxaReal], where [m] is the sum
    of the schedule divided by its length when the schedule is non-empty, else
    [inflacaoAnual]; and [rAnualReal] itself when [usarTaxaReal] is false. *)
Theorem taxaNecessaria_annual_figure :
  forall (N : JsNumber)
         (montanteInicial aporteMensal anos meta : num)
         (contribuicaoNoInicio usarTaxaReal : bool)
         (inflacaoAnual : num) (inflacaoTabela : option (list num))
         (politicaAporte : option PoliticaAporte) (taxa : num),
    taxaNecessaria montanteInicial aporteMensal anos meta contribuicaoNoInicio
      usarTaxaReal inflacaoAnual inflacaoTabela politicaAporte = Some taxa ->
    let saldoFinalDe :=
      saldoFinalComTaxa montanteInicial aporteMensal
        (Z.max 1 (Math_round (anos * ofZ 12)%J)) contribuicaoNoInicio usarTaxaReal
        inflacaoAnual inflacaoTabela (politicaOuConstante politicaAporte) in
    let avaliados :=
      candidatosTaxa montanteInicial aporteMensal anos meta contribuicaoNoInicio
        usarTaxaReal inflacaoAnual inflacaoTabela politicaAporte in
    exists rMensal : num,
      last (map Some (filter (qualifica saldoFinalDe meta) avaliados)) None
        = Some rMensal /\
      In rMensal avaliados /\
      Number_isFinite (saldoFinalDe rMensal) = true /\
      (saldoFinalDe rMensal >=? meta)%J = true /\
      let rAnualReal := (Math_pow (ofZ 1 + rMensal) (ofZ 12) - ofZ 1)%J in
      let m :=
        match inflacaoTabela with
        | Some (x :: t) =>
            (fold_left (fun acc val => (acc + val)%J) (x :: t) (ofZ 0)
             / ofZ (Z.of_nat (List.length (x :: t))))%J
        | _ => inflacaoAnual
        end in
      taxa = if usarTaxaReal
             then ((ofZ 1 + rAnualReal) * (ofZ 1 + m) - ofZ 1)%J
             else rAnualReal.
Proof.
  intros N mi am anos meta cni utr ia it pol taxa H sf avaliados.
  subst avaliados. rewrite candidatosTaxa_eq. rewrite taxaNecessaria_eq in H.
  fold sf in H |- *.
  pose proof (buscaTaxa_last sf meta 160 (lit (-9 # 10)) (ofZ 1) None) as Hlast.
  destruct (buscaTaxa sf meta 160 (lit (-9 # 10)) (ofZ 1) None) as [found|] eqn:Hb;
    [|discriminate H].
  injection H as <-. exists found.
  split; [symmetry; exact Hlast|].
  destruct (buscaTaxa_Some sf meta 160 (lit (-9 # 10)) (ofZ 1) Hb) as [Hin Hq].
  unfold qualifica in Hq.
  apply andb_true_iff in Hq. destruct Hq as [Hfin Hge].
  split; [exact Hin|]. split; [exact Hfin|]. split; [exact Hge|].
  unfold toAnualNominal, inflacaoMediaAnual.
  destruct it as [[|x t]|]; destruct utr; reflexivity.
Qed.

(** The scenario "Taxa necessária ~0" of the regression suite: 100 a month
    for 120 months against a target of 12000.  The monthly rate found is
    below one ulp of 1, and its annual figure is 0. *)
Lemma taxaNecessaria_annual_figure_witness :
  @taxaNecessaria IEEE.number 0%float 100%float 10%float 12000%float true false
    0%float None None = Some 0%float /\
  exists rMensal : float,
    In rMensal (@candidatosTaxa IEEE.number 0%float 100%float 10%float 12000%float
                  true false 0%float None None) /\
    0%float = PrimFloat.sub (IEEE.pow (PrimFloat.add 1 rMensal) 12) 1.
Proof.
  assert (H : @taxaNecessaria IEEE.number 0%float 100%float 10%float 12000%float
                true false 0%float None None = Some 0%float)
    by (vm_compute; reflexivity).
  split; [exact H|].
  destruct (@taxaNecessaria_annual_figure IEEE.number 0%float 100%float 10%float
              12000%float true false 0%float None None 0%float H)
    as (r & _ & Hin & _ & _ & Hr).
  exists r. split; [exact Hin|exact Hr].
Defined.

(** ** Constant contributions at a zero rate *)

Section TaxaZero.
Context {N : JsNumber}.
Hypothesis leis : ExactLaws N.
Variables (A meta : num).

Let apos :=
  estadoApos (ofZ 0) A (Math_pow (ofZ 1 + ofZ 0) (ofZ 1 / ofZ 12) - ofZ 1)%J meta
    true false (ofZ 0) None constante.

Lemma fator_unitario :
  (ofZ 1 + (Math_pow (ofZ 1 + ofZ 0) (ofZ 1 / ofZ 12) - ofZ 1))%J = ofZ 1.
Proof.
  now rewrite (add_0_r leis), (root_1 leis), (sub_1_1 leis), (add_0_r leis).
Qed.

Lemma apos_saldo_constante (k : nat) :
  st_saldo (apos (S k)) = (st_saldo (apos k) + A)%J.
Proof.
  unfold apos. rewrite apos_saldo_S.
  unfold novoSaldo, taxaMensalEfetiva. cbn [aporteNoMes].
  now rewrite fator_unitario, (mul_1_r (exact_units leis)).
Qed.

Lemma apos_saldo_multiplo (k : nat) :
  st_saldo (apos (S k)) = (ofZ (Z.of_nat (S k)) * A)%J.
Proof.
  induction k as [|k IH].
  - rewrite apos_saldo_constante. cbn [apos estadoApos range1 Z.of_nat Z.to_nat
      Pos.to_nat Pos.iter_op seq map fold_left estadoInicial st_saldo].
    change (Z.of_nat 1) with 1%Z.
    now rewrite (add_0_l leis), (mul_1_l leis).
  - rewrite apos_saldo_constante, IH.
    rewrite <- (mul_1_l leis A) at 2.
    rewrite <- (mul_add_distr_r leis), <- (ofZ_succ leis) by lia.
    f_equal. f_equal. lia.
Qed.

End TaxaZero.




(** ** Where rates are floored *)


(** The tokenizer on a schedule typed by hand: separators are commas,
    semicolons and white space, a percent sign is dropped, a token that is
    not a number is discarded, and -2 is floored to -0.99. *)
Example parseInflacaoTabela_sample :
  @parseInflacaoTabela IEEE.number "0.04, 0.05;-2 abc 3%"
  = [0.04; 0.05; -0.99; 3]%float.
Proof. vm_compute. reflexivity. Qed.


(** ** The regression suite of [testCases.ts]

    The scenarios of the repository's own tests that stay within the exact
    fragment of [Math.pow], evaluated in binary64. *)

(** "Projeção sem juros (início)" and "(fim)": 100 a month at a zero rate
    reaches 1200 in month 12. *)
Example teste_projecao_sem_juros :
  mesAlvo (@calcularProjecao IEEE.number 0%float 100%float 0%float 1200%float 2%float
             true false 0%float None None) = Some 12%Z /\
  mesAlvo (@calcularProjecao IEEE.number 0%float 100%float 0%float 1200%float 2%float
             false false 0%float None None) = Some 12%Z.
Proof. vm_compute. split; reflexivity. Qed.

(** "Aporte necessário (taxa zero)": 12000 in ten years needs 100 a month. *)
Example teste_aporte_necessario :
  @aporteNecessario IEEE.number 0%float 0%float 10%float 12000%float true false
    0%float None None = Some 100%float.
Proof. vm_compute. reflexivity. Qed.

(** "Reajuste anual 10% no mês 12/24 (r=0)": the balance of month 24 is
    11 * 100 + 110 + 11 * 110 + 121 = 2541 within the tolerance of the
    test. *)
Example teste_reajuste_anual :
  PrimFloat.leb
    (PrimFloat.abs
       (PrimFloat.sub
          (saldoEm (dados (@calcularProjecao IEEE.number 0%float 100%float 0%float
                             1e12%float 2%float false false 0%float None
                             (Some (@anual_pct IEEE.number 0.1%float)))) 24)
          2541))
    (PrimFloat.mul 1e-9 2541) = true.
Proof. vm_compute. reflexivity. Qed.

(** * Further properties of the engine *)

(** ** Month counts as text *)

Example mesesParaAnosMeses_testes :
  mesesParaAnosMeses 0 = "0 meses"%string /\
  mesesParaAnosMeses 13 = "1 ano e 1 mês"%string /\
  mesesParaAnosMeses 25 = "2 anos e 1 mês"%string /\
  mesesParaAnosMeses 12 = "1 ano e 0 meses"%string.
Proof. repeat split. Qed.

Lemma digitos_semBranco (d : uint) : semBranco (NilEmpty.string_of_uint d) = true.
Proof. induction d; cbn; auto. Qed.

Lemma decimal_semBranco (z : Z) : semBranco (decimal z) = true.
Proof.
  unfold decimal, NilZero.string_of_int, NilZero.string_of_uint.
  destruct (Z.to_int z) as [d|d]; destruct d; cbn; auto using digitos_semBranco.
Qed.

Lemma decimal_inj (a b : Z) : decimal a = decimal b -> a = b.
Proof.
  unfold decimal. intros E.
  assert (Hn : forall z, Z.to_int z <> Pos Nil /\ Z.to_int z <> Neg Nil).
  { intros [|p|p]; cbn; split; try discriminate;
      intros H; injection H as H; now apply Unsigned.to_uint_nonnil in H. }
  apply (f_equal NilZero.int_of_string) in E.
  rewrite !NilZero.isi in E by apply Hn.
  injection E as E. now apply DecimalZ.to_int_inj.
Qed.

(** Two texts that agree, each a blank-free word followed by a blank, agree
    on the word and on the rest. *)
Lemma palavra_inj (s1 s2 r1 r2 : string) :
  semBranco s1 = true -> semBranco s2 = true ->
  (s1 ++ String " " r1 = s2 ++ String " " r2)%string ->
  s1 = s2 /\ r1 = r2.
Proof.
  revert s2. induction s1 as [|c s1 IH]; intros [|c2 s2] H1 H2 E; cbn in *.
  - injection E as E. auto.
  - injection E as <- E. apply andb_true_iff in H2. destruct H2 as [H2 _].
    discriminate H2.
  - injection E as -> E. apply andb_true_iff in H1. destruct H1 as [H1 _].
    discriminate H1.
  - injection E as <- E.
    apply andb_true_iff in H1. apply andb_true_iff in H2.
    destruct (IH s2 (proj2 H1) (proj2 H2) E) as [-> ->]. auto.
Qed.

Lemma str_append_assoc (x y z : string) :
  ((x ++ y) ++ z = x ++ (y ++ z))%string.
Proof. induction x as [|c x IH]; cbn; [reflexivity|now rewrite IH]. Qed.

Lemma parte_inj (n1 n2 : Z) (u1 u2 : string) :
  (decimal n1 ++ " " ++ u1 = decimal n2 ++ " " ++ u2)%string ->
  n1 = n2 /\ u1 = u2.
Proof.
  intros E.
  destruct (palavra_inj (decimal n1) (decimal n2) u1 u2
              (decimal_semBranco n1) (decimal_semBranco n2) E) as [Ed Eu].
  split; [now apply decimal_inj|exact Eu].
Qed.

(** X18.  The text of a month count determines the count: two non-negative
    month counts with the same text are equal. *)
Theorem mesesParaAnosMeses_inj :
  forall a b : Z,
    (0 <= a)%Z -> (0 <= b)%Z ->
    mesesParaAnosMeses a = mesesParaAnosMeses b -> a = b.
Proof.
  intros a b Ha Hb. unfold mesesParaAnosMeses. cbv zeta.
  rewrite !Z.rem_mod_nonneg by lia.
  pose proof (Z.div_mod a 12 ltac:(lia)) as Da.
  pose proof (Z.div_mod b 12 ltac:(lia)) as Db.
  pose proof (Z.div_pos a 12 Ha ltac:(lia)) as Pa.
  pose proof (Z.div_pos b 12 Hb ltac:(lia)) as Pb.
  destruct (Z.ltb_spec 0 (a / 12)) as [Ya|Ya];
    destruct (Z.ltb_spec 0 (b / 12)) as [Yb|Yb]; cbn [List.app String.concat].
  - rewrite !str_append_assoc. intros E.
    apply parte_inj in E. destruct E as [Ey E].
    rewrite Ey in E.
    assert (Em : (decimal (a mod 12) ++ " " ++
                    (if (a mod 12 =? 1)%Z then "mês" else "meses")
                  = decimal (b mod 12) ++ " " ++
                    (if (b mod 12 =? 1)%Z then "mês" else "meses"))%string).
    { destruct (b / 12 =? 1)%Z; cbn in E; injection E as E; exact E. }
    apply parte_inj in Em. lia.
  - rewrite !str_append_assoc. intros E.
    apply parte_inj in E. destruct E as [_ E]. exfalso.
    destruct (a / 12 =? 1)%Z, (b mod 12 =? 1)%Z; cbn in E; discriminate E.
  - rewrite !str_append_assoc. intros E.
    apply parte_inj in E. destruct E as [_ E]. exfalso.
    destruct (b / 12 =? 1)%Z, (a mod 12 =? 1)%Z; cbn in E; discriminate E.
  - intros E. apply parte_inj in E. lia.
Qed.

Lemma mesesParaAnosMeses_inj_witness :
  mesesParaAnosMeses 13 = "1 ano e 1 mês"%string /\ 13%Z = 13%Z.
Proof.
  split; [reflexivity|].
  refine (@mesesParaAnosMeses_inj 13%Z 13%Z _ _ _); [lia|lia|reflexivity].
Defined.

(** ** The records of the series *)

Section Registros.
Context {N : JsNumber}.
Variables (montanteInicial aporteMensal taxaNominal meta : num).
Variables (contribuicaoNoInicio usarTaxaReal : bool).
Variables (inflacaoAnual : num) (inflacaoTabela : option (list num)).
Variable (politica : PoliticaAporte).

Let passo :=
  passoMes aporteMensal taxaNominal meta contribuicaoNoInicio usarTaxaReal
    inflacaoAnual inflacaoTabela politica.
Let apos :=
  estadoApos montanteInicial aporteMensal taxaNominal meta contribuicaoNoInicio
    usarTaxaReal inflacaoAnual inflacaoTabela politica.
Let registro :=
  registroApos montanteInicial aporteMensal taxaNominal meta contribuicaoNoInicio
    usarTaxaReal inflacaoAnual inflacaoTabela politica.
Let aporteDe (m : Z) := aporteNoMes m aporteMensal politica inflacaoAnual inflacaoTabela.

Lemma passo_registro (st : Estado) (m : Z) :
  st_dados (passo st m) =
  st_dados st ++
  [{| mes := m;
      saldo := st_saldo (passo st m);
      contribuicoesAcum := st_contribuicoesAcum (passo st m);
      ganhosAcum := (st_saldo (passo st m) - st_contribuicoesAcum (passo st m))%J;
      aporte := aporteDe m |}].
Proof. unfold passo, passoMes, aporteDe. destruct contribuicaoNoInicio; reflexivity. Qed.

Lemma passo_contribuicoes (st : Estado) (m : Z) :
  st_contribuicoesAcum (passo st m) = (st_contribuicoesAcum st + aporteDe m)%J.
Proof. unfold passo, passoMes, aporteDe. destruct contribuicaoNoInicio; reflexivity. Qed.

Lemma apos_passo (n : nat) : apos (S n) = passo (apos n) (Z.of_nat (S n)).
Proof. apply apos_S. Qed.

(** The series is the list of the records of the turns 0..n. *)
Lemma apos_dados (n : nat) : st_dados (apos n) = map registro (seq 0 (S n)).
Proof.
  induction n as [|n IH]; [reflexivity|].
  rewrite apos_passo, passo_registro, IH, (seq_S (S n)), map_app.
  f_equal. cbn [map Nat.add]. unfold registro, registroApos.
  fold apos. rewrite apos_passo. reflexivity.
Qed.

Lemma apos_contribuicoes (n : nat) :
  st_contribuicoesAcum (apos (S n)) =
  (st_contribuicoesAcum (apos n) + aporteDe (Z.of_nat (S n)))%J.
Proof. rewrite apos_passo. apply passo_contribuicoes. Qed.

End Registros.

Lemma calcularProjecao_dados_map (N : JsNumber)
    (mi am ra meta al : num) (cni utr : bool) (ia : num) (it : option (list num))
    (pol : option PoliticaAporte) :
  dados (calcularProjecao mi am ra meta al cni utr ia it pol) =
  map (registroApos mi am (Math_pow (ofZ 1 + ra) (ofZ 1 / ofZ 12) - ofZ 1)%J meta
         cni utr ia it (politicaOuConstante pol))
      (seq 0 (S (Z.to_nat (Z.max 1 (Math_floor (al * ofZ 12)%J))))).
Proof. rewrite resultado_dados. apply apos_dados. Qed.

Lemma index_map_seq {A : Type} (f : nat -> A) (n : nat) (m : Z) :
  index (map f (seq 0 n)) m =
  if ((0 <=? m) && (m <? Z.of_nat n))%Z then Some (f (Z.to_nat m)) else None.
Proof.
  unfold index. destruct (Z.ltb_spec m 0) as [Hneg|Hpos].
  - destruct (Z.leb_spec 0 m); [lia|reflexivity].
  - destruct (Z.leb_spec 0 m); [|lia]. cbn [andb].
    destruct (Z.ltb_spec m (Z.of_nat n)) as [Hlt|Hge].
    + rewrite nth_error_map, nth_error_nth' with (d := O) by (rewrite length_seq; lia).
      rewrite seq_nth by lia. reflexivity.
    + apply nth_error_None. rewrite length_map, length_seq. lia.
Qed.

(** X1.  The series is indexed by month: it has the records 0..limite with
    [limite = max(1, floor(anosLimite * 12)) >= 1], record 0 is the seed
    (balance and contributions equal to the initial amount, no contribution),
    and the record read at index [m] is that of month [m]. *)
Theorem calcularProjecao_series_indexed :
  forall (N : JsNumber)
         (montanteInicial aporteMensal rentabAnual meta anosLimite : num)
         (contribuicaoNoInicio usarTaxaReal : bool)
         (inflacaoAnual : num) (inflacaoTabela : option (list num))
         (politicaAporte : option PoliticaAporte),
    let r := calcularProjecao montanteInicial aporteMensal rentabAnual meta anosLimite
               contribuicaoNoInicio usarTaxaReal inflacaoAnual inflacaoTabela
               politicaAporte in
    let limite := Z.max 1 (Math_floor (anosLimite * ofZ 12)%J) in
    (2 <= List.length (dados r))%nat /\
    Z.of_nat (List.length (dados r)) = (limite + 1)%Z /\
    index (dados r) 0 =
      Some {| mes := 0; saldo := montanteInicial; contribuicoesAcum := montanteInicial;
              ganhosAcum := (montanteInicial - montanteInicial)%J; aporte := ofZ 0 |} /\
    (forall m d, index (dados r) m = Some d -> (0 <= m <= limite)%Z /\ mes d = m) /\
    (forall m, (0 <= m <= limite)%Z -> exists d, index (dados r) m = Some d).
Proof.
  intros N mi am ra meta al cni utr ia it pol r limite.
  assert (Hlen : Z.of_nat (List.length (dados r)) = (limite + 1)%Z)
    by apply resultado_length.
  assert (Hl : (1 <= limite)%Z) by (unfold limite; lia).
  split; [lia|]. split; [exact Hlen|].
  unfold r. rewrite calcularProjecao_dados_map. fold limite.
  split; [reflexivity|]. split.
  - intros m d. rewrite index_map_seq.
    destruct (Z.leb_spec 0 m); [|discriminate].
    destruct (Z.ltb_spec m (Z.of_nat (S (Z.to_nat limite)))); [|discriminate].
    cbn [andb]. intros E. injection E as <-. cbn [mes registroApos]. lia.
  - intros m Hm. rewrite index_map_seq.
    destruct (Z.leb_spec 0 m); [|lia].
    destruct (Z.ltb_spec m (Z.of_nat (S (Z.to_nat limite)))); [|lia].
    now eexists.
Qed.

(** X2.  In every record of the series the gains are the balance minus the
    cumulative contributions. *)
Theorem calcularProjecao_gains_invariant :
  forall (N : JsNumber)
         (montanteInicial aporteMensal rentabAnual meta anosLimite : num)
         (contribuicaoNoInicio usarTaxaReal : bool)
         (inflacaoAnual : num) (inflacaoTabela : option (list num))
         (politicaAporte : option PoliticaAporte),
    Forall (fun d => ganhosAcum d = (saldo d - contribuicoesAcum d)%J)
      (dados (calcularProjecao montanteInicial aporteMensal rentabAnual meta anosLimite
                contribuicaoNoInicio usarTaxaReal inflacaoAnual inflacaoTabela
                politicaAporte)).
Proof.
  intros. rewrite calcularProjecao_dados_map. apply Forall_forall.
  intros d Hd. apply in_map_iff in Hd. destruct Hd as (k & <- & _). reflexivity.
Qed.

(** X3.  Whatever the timing of the contribution, the cumulative
    contributions of month [m] are those of month [m - 1] plus the
    contribution of month [m], which is [aporteNoMes m]. *)
Theorem calcularProjecao_contributions_accumulate :
  forall (N : JsNumber)
         (montanteInicial aporteMensal rentabAnual meta anosLimite : num)
         (contribuicaoNoInicio usarTaxaReal : bool)
         (inflacaoAnual : num) (inflacaoTabela : option (list num))
         (politicaAporte : option PoliticaAporte) (m : Z),
    (1 <= m <= Z.max 1 (Math_floor (anosLimite * ofZ 12)%J))%Z ->
    exists anterior atual : ProjecaoDado,
      index (dados (calcularProjecao montanteInicial aporteMensal rentabAnual meta
                      anosLimite contribuicaoNoInicio usarTaxaReal inflacaoAnual
                      inflacaoTabela politicaAporte)) (m - 1) = Some anterior /\
      index (dados (calcularProjecao montanteInicial aporteMensal rentabAnual meta
                      anosLimite contribuicaoNoInicio usarTaxaReal inflacaoAnual
                      inflacaoTabela politicaAporte)) m = Some atual /\
      aporte atual =
        aporteNoMes m aporteMensal (politicaOuConstante politicaAporte)
          inflacaoAnual inflacaoTabela /\
      contribuicoesAcum atual = (contribuicoesAcum anterior + aporte atual)%J.
Proof.
  intros N mi am ra meta al cni utr ia it pol m Hm.
  rewrite calcularProjecao_dados_map, !index_map_seq.
  destruct (Z.leb_spec 0 (m - 1)); [|lia].
  destruct (Z.leb_spec 0 m); [|lia].
  destruct (Z.ltb_spec (m - 1)
              (Z.of_nat (S (Z.to_nat (Z.max 1 (Math_floor (al * ofZ 12)%J)))))); [|lia].
  destruct (Z.ltb_spec m
              (Z.of_nat (S (Z.to_nat (Z.max 1 (Math_floor (al * ofZ 12)%J)))))); [|lia].
  cbn [andb]. do 2 eexists. split; [reflexivity|]. split; [reflexivity|].
  replace (Z.to_nat m) with (S (Z.to_nat (m - 1))) by lia.
  cbn [aporte contribuicoesAcum registroApos].
  split; [f_equal; lia|]. apply apos_contribuicoes.
Qed.

Lemma calcularProjecao_contributions_accumulate_witness :
  exists anterior atual : @ProjecaoDado IEEE.number,
    index (dados (@calcularProjecao IEEE.number 0%float 100%float 0%float 1200%float
                    2%float false false 0%float None None)) (12 - 1) = Some anterior /\
    index (dados (@calcularProjecao IEEE.number 0%float 100%float 0%float 1200%float
                    2%float false false 0%float None None)) 12 = Some atual /\
    aporte atual = 100%float /\
    contribuicoesAcum atual = PrimFloat.add (contribuicoesAcum anterior) (aporte atual).
Proof.
  refine (@calcularProjecao_contributions_accumulate IEEE.number
            0%float 100%float 0%float 1200%float 2%float false false 0%float
            None None 12%Z _).
  vm_compute. split; discriminate.
Defined.

Lemma fold_left_ext_In {A B : Type} (f g : A -> B -> A) (l : list B) (a : A) :
  (forall x y, In y l -> f x y = g x y) -> fold_left f l a = fold_left g l a.
Proof.
  revert a. induction l as [|b l IH]; intros a H; [reflexivity|].
  cbn. rewrite (H a b) by now left. apply IH. intros x y Hy. apply H. now right.
Qed.

Lemma firstn_seq_le (a b start : nat) :
  (a <= b)%nat -> firstn a (seq start b) = seq start a.
Proof.
  revert b start. induction a as [|a IH]; intros b start Hab; [reflexivity|].
  destruct b as [|b]; [lia|]. cbn. f_equal. apply IH. lia.
Qed.

(** The cumulative contributions do not depend on the rate, the target or
    the timing. *)
Lemma apos_contribuicoes_indep (N : JsNumber)
    (mi am tn1 tn2 meta1 meta2 : num) (cni1 cni2 utr1 utr2 : bool)
    (ia : num) (it : option (list num)) (pol : PoliticaAporte) (n : nat) :
  st_contribuicoesAcum (estadoApos mi am tn1 meta1 cni1 utr1 ia it pol n) =
  st_contribuicoesAcum (estadoApos mi am tn2 meta2 cni2 utr2 ia it pol n).
Proof.
  induction n as [|n IH]; [reflexivity|].
  now rewrite !apos_contribuicoes, IH.
Qed.

(** X4.  The contribution of each month and the cumulative contributions
    depend only on the initial amount, the base contribution, the policy,
    the inflation inputs and the horizon: two projections that differ in the
    annual rate, the target, the timing of the contribution or the use of
    real rates have the same two columns. *)
Theorem calcularProjecao_contributions_independent :
  forall (N : JsNumber)
         (montanteInicial aporteMensal anosLimite : num)
         (inflacaoAnual : num) (inflacaoTabela : option (list num))
         (politicaAporte : option PoliticaAporte)
         (rentabAnual1 rentabAnual2 meta1 meta2 : num)
         (contribuicaoNoInicio1 contribuicaoNoInicio2 usarTaxaReal1 usarTaxaReal2 : bool),
    map contribuicoesAcum
      (dados (calcularProjecao montanteInicial aporteMensal rentabAnual1 meta1 anosLimite
                contribuicaoNoInicio1 usarTaxaReal1 inflacaoAnual inflacaoTabela
                politicaAporte)) =
    map contribuicoesAcum
      (dados (calcularProjecao montanteInicial aporteMensal rentabAnual2 meta2 anosLimite
                contribuicaoNoInicio2 usarTaxaReal2 inflacaoAnual inflacaoTabela
                politicaAporte)) /\
    map aporte
      (dados (calcularProjecao montanteInicial aporteMensal rentabAnual1 meta1 anosLimite
                contribuicaoNoInicio1 usarTaxaReal1 inflacaoAnual inflacaoTabela
                politicaAporte)) =
    map aporte
      (dados (calcularProjecao montanteInicial aporteMensal rentabAnual2 meta2 anosLimite
                contribuicaoNoInicio2 usarTaxaReal2 inflacaoAnual inflacaoTabela
                politicaAporte)).
Proof.
  intros. rewrite !calcularProjecao_dados_map, !map_map. split.
  - apply map_ext. intros k. cbn [contribuicoesAcum registroApos].
    apply apos_contribuicoes_indep.
  - apply map_ext. intros k. reflexivity.
Qed.

(** X5.  A longer horizon extends the series and keeps the month the target
    is reached: the records of the shorter projection are the first records
    of the longer one; a [mesAlvo] of the shorter one is that of the longer
    one; and a [mesAlvo] of the longer one that lies within the shorter
    horizon is that of the shorter one. *)
Theorem calcularProjecao_horizon_extension :
  forall (N : JsNumber)
         (montanteInicial aporteMensal rentabAnual meta : num)
         (contribuicaoNoInicio usarTaxaReal : bool)
         (inflacaoAnual : num) (inflacaoTabela : option (list num))
         (politicaAporte : option PoliticaAporte) (anos1 anos2 : num),
    (Z.max 1 (Math_floor (anos1 * ofZ 12)%J)
     <= Z.max 1 (Math_floor (anos2 * ofZ 12)%J))%Z ->
    let r1 := calcularProjecao montanteInicial aporteMensal rentabAnual meta anos1
                contribuicaoNoInicio usarTaxaReal inflacaoAnual inflacaoTabela
                politicaAporte in
    let r2 := calcularProjecao montanteInicial aporteMensal rentabAnual meta anos2
                contribuicaoNoInicio usarTaxaReal inflacaoAnual inflacaoTabela
                politicaAporte in
    firstn (List.length (dados r1)) (dados r2) = dados r1 /\
    (forall m, mesAlvo r1 = Some m -> mesAlvo r2 = Some m) /\
    (forall m, mesAlvo r2 = Some m ->
               (m <= Z.max 1 (Math_floor (anos1 * ofZ 12)%J))%Z ->
               mesAlvo r1 = Some m).
Proof.
  intros N mi am ra meta cni utr ia it pol a1 a2 Hle r1 r2.
  set (l1 := Z.max 1 (Math_floor (a1 * ofZ 12)%J)) in *.
  set (l2 := Z.max 1 (Math_floor (a2 * ofZ 12)%J)) in *.
  assert (H1 : (1 <= l1)%Z) by (unfold l1; lia).
  split; [|split].
  - unfold r1, r2. rewrite !calcularProjecao_dados_map. fold l1 l2.
    rewrite length_map, length_seq, firstn_map, firstn_seq_le by lia.
    reflexivity.
  - intros m. unfold r1, r2. rewrite !resultado_mesAlvo, !apos_mesAlvo. fold l1 l2.
    destruct (mi >=? meta)%J; [auto|].
    rewrite !find_range1_Some. intros (Hm & Hf & Hmin).
    repeat split; try assumption; lia.
  - intros m. unfold r1, r2. rewrite !resultado_mesAlvo, !apos_mesAlvo. fold l1 l2.
    destruct (mi >=? meta)%J; [auto|].
    rewrite !find_range1_Some. intros (Hm & Hf & Hmin) Hm1.
    repeat split; try assumption; lia.
Qed.

Lemma calcularProjecao_horizon_extension_witness :
  firstn
    (List.length
       (dados (@calcularProjecao IEEE.number 0%float 100%float 0%float 1200%float
                 1%float true false 0%float None None)))
    (dados (@calcularProjecao IEEE.number 0%float 100%float 0%float 1200%float
              2%float true false 0%float None None))
  = dados (@calcularProjecao IEEE.number 0%float 100%float 0%float 1200%float
             1%float true false 0%float None None) /\
  mesAlvo (@calcularProjecao IEEE.number 0%float 100%float 0%float 1200%float
             2%float true false 0%float None None) = Some 12%Z.
Proof.
  destruct (@calcularProjecao_horizon_extension IEEE.number 0%float 100%float 0%float
              1200%float true false 0%float None None 1%float 2%float)
    as (Hpre & Hup & _).
  - vm_compute. discriminate.
  - split; [exact Hpre|]. apply Hup. vm_compute. reflexivity.
Defined.

(** ** Sums and balances as folds over the months *)

Section Dobras.
Context {N : JsNumber}.
Variables (aporteMensal taxaNominal meta : num).
Variables (contribuicaoNoInicio usarTaxaReal : bool).
Variables (inflacaoAnual : num) (inflacaoTabela : option (list num)).
Variable (politica : PoliticaAporte).

Let passo :=
  passoMes aporteMensal taxaNominal meta contribuicaoNoInicio usarTaxaReal
    inflacaoAnual inflacaoTabela politica.

Lemma fold_passo_soma (l : list Z) (st : Estado) :
  st_somaInflacaoMensal (fold_left passo l st) =
  fold_left (fun soma m => (soma + inflacaoMensalDoMes m inflacaoAnual inflacaoTabela)%J)
    l (st_somaInflacaoMensal st).
Proof.
  revert st. induction l as [|m l IH]; intros st; [reflexivity|].
  cbn [fold_left]. rewrite IH. f_equal.
  unfold passo, passoMes. destruct contribuicaoNoInicio; reflexivity.
Qed.

Lemma fold_passo_saldo (l : list Z) (st : Estado) :
  st_saldo (fold_left passo l st) =
  fold_left
    (fun saldo m =>
       let inflMensal := inflacaoMensalDoMes m inflacaoAnual inflacaoTabela in
       let rEfetivo := taxaMensalEfetiva usarTaxaReal taxaNominal inflMensal in
       let aporteMes := aporteNoMes m aporteMensal politica inflacaoAnual inflacaoTabela in
       if contribuicaoNoInicio then ((saldo + aporteMes) * (ofZ 1 + rEfetivo))%J
       else (saldo * (ofZ 1 + rEfetivo) + aporteMes)%J)
    l (st_saldo st).
Proof.
  revert st. induction l as [|m l IH]; intros st; [reflexivity|].
  cbn [fold_left]. rewrite IH. f_equal.
  unfold passo, passoMes. destruct contribuicaoNoInicio; reflexivity.
Qed.

End Dobras.

(** X6.  The reported average monthly inflation is the sum of the monthly
    inflation rates of the months 1..limite divided by [limite], the number
    of simulated months (at least 1, so the divisor is never 0). *)
Theorem calcularProjecao_average_inflation :
  forall (N : JsNumber)
         (montanteInicial aporteMensal rentabAnual meta anosLimite : num)
         (contribuicaoNoInicio usarTaxaReal : bool)
         (inflacaoAnual : num) (inflacaoTabela : option (list num))
         (politicaAporte : option PoliticaAporte),
    let limite := Z.max 1 (Math_floor (anosLimite * ofZ 12)%J) in
    (1 <= limite)%Z /\
    taxaMensalInflacaoMedia
      (calcularProjecao montanteInicial aporteMensal rentabAnual meta anosLimite
         contribuicaoNoInicio usarTaxaReal inflacaoAnual inflacaoTabela politicaAporte)
    = (fold_left
         (fun soma m => (soma + inflacaoMensalDoMes m inflacaoAnual inflacaoTabela)%J)
         (range1 limite) (ofZ 0)
       / ofZ limite)%J.
Proof.
  intros N mi am ra meta al cni utr ia it pol limite.
  split; [unfold limite; lia|].
  unfold calcularProjecao. cbn [taxaMensalInflacaoMedia]. fold limite.
  rewrite fold_passo_soma. replace (Z.max 1 limite) with limite by (unfold limite; lia).
  reflexivity.
Qed.

(** X7.  The month loop that [taxaNecessaria] runs on its own computes the
    balance of the projection: for the monthly rate that [calcularProjecao]
    derives from [rentabAnual], [saldoFinalComTaxa] over [n] months is the
    balance of record [n], for every [n] within the horizon. *)
Theorem saldoFinalComTaxa_is_projection_balance :
  forall (N : JsNumber)
         (montanteInicial aporteMensal rentabAnual meta anosLimite : num)
         (contribuicaoNoInicio usarTaxaReal : bool)
         (inflacaoAnual : num) (inflacaoTabela : option (list num))
         (politicaAporte : option PoliticaAporte) (n : Z),
    (0 <= n <= Z.max 1 (Math_floor (anosLimite * ofZ 12)%J))%Z ->
    saldoFinalComTaxa montanteInicial aporteMensal n contribuicaoNoInicio usarTaxaReal
      inflacaoAnual inflacaoTabela (politicaOuConstante politicaAporte)
      (Math_pow (ofZ 1 + rentabAnual) (ofZ 1 / ofZ 12) - ofZ 1)%J
    = saldoEm
        (dados (calcularProjecao montanteInicial aporteMensal rentabAnual meta anosLimite
                  contribuicaoNoInicio usarTaxaReal inflacaoAnual inflacaoTabela
                  politicaAporte)) n.
Proof.
  intros N mi am ra meta al cni utr ia it pol n Hn.
  rewrite resultado_saldoEm by exact Hn.
  unfold estadoApos. rewrite fold_passo_saldo, Z2Nat.id by lia. reflexivity.
Qed.

Lemma saldoFinalComTaxa_is_projection_balance_witness :
  @saldoFinalComTaxa IEEE.number 0%float 100%float 12 true false 0%float None
    (@constante IEEE.number)
    (PrimFloat.sub (IEEE.pow (PrimFloat.add 1 0) (PrimFloat.div 1 12)) 1)
  = saldoEm
      (dados (@calcularProjecao IEEE.number 0%float 100%float 0%float 1200%float
                2%float true false 0%float None None)) 12.
Proof.
  refine (@saldoFinalComTaxa_is_projection_balance IEEE.number 0%float 100%float
            0%float 1200%float 2%float true false 0%float None None 12%Z _).
  vm_compute. split; discriminate.
Defined.

(** ** Inflation inputs that are not read *)

Lemma aporteNoMes_semInflacao (N : JsNumber) (m : Z) (base : num)
    (pol : PoliticaAporte) (ia1 ia2 : num) (it1 it2 : option (list num)) :
  semInflacao pol = true ->
  aporteNoMes m base pol ia1 it1 = aporteNoMes m base pol ia2 it2.
Proof. destruct pol; cbn; intros H; (reflexivity || discriminate H). Qed.

Lemma passoMes_semInflacao (N : JsNumber)
    (am tn meta : num) (cni : bool) (ia1 ia2 : num) (it1 it2 : option (list num))
    (pol : PoliticaAporte) (st1 st2 : Estado) (m : Z) :
  semInflacao pol = true ->
  st_saldo st1 = st_saldo st2 ->
  st_contribuicoesAcum st1 = st_contribuicoesAcum st2 ->
  st_dados st1 = st_dados st2 ->
  st_mesAlvo st1 = st_mesAlvo st2 ->
  st_saldo (passoMes am tn meta cni false ia1 it1 pol st1 m)
    = st_saldo (passoMes am tn meta cni false ia2 it2 pol st2 m) /\
  st_contribuicoesAcum (passoMes am tn meta cni false ia1 it1 pol st1 m)
    = st_contribuicoesAcum (passoMes am tn meta cni false ia2 it2 pol st2 m) /\
  st_dados (passoMes am tn meta cni false ia1 it1 pol st1 m)
    = st_dados (passoMes am tn meta cni false ia2 it2 pol st2 m) /\
  st_mesAlvo (passoMes am tn meta cni false ia1 it1 pol st1 m)
    = st_mesAlvo (passoMes am tn meta cni false ia2 it2 pol st2 m).
Proof.
  intros Hp Hs Hc Hd Ha. unfold passoMes, taxaMensalEfetiva.
  rewrite (@aporteNoMes_semInflacao N m am pol ia1 ia2 it1 it2 Hp), Hs, Hc, Hd, Ha.
  destruct cni; cbn; auto.
Qed.

Lemma fold_passoMes_semInflacao (N : JsNumber)
    (am tn meta : num) (cni : bool) (ia1 ia2 : num) (it1 it2 : option (list num))
    (pol : PoliticaAporte) (l : list Z) :
  semInflacao pol = true ->
  forall st1 st2 : Estado,
    st_saldo st1 = st_saldo st2 ->
    st_contribuicoesAcum st1 = st_contribuicoesAcum st2 ->
    st_dados st1 = st_dados st2 ->
    st_mesAlvo st1 = st_mesAlvo st2 ->
    st_dados (fold_left (passoMes am tn meta cni false ia1 it1 pol) l st1)
      = st_dados (fold_left (passoMes am tn meta cni false ia2 it2 pol) l st2) /\
    st_mesAlvo (fold_left (passoMes am tn meta cni false ia1 it1 pol) l st1)
      = st_mesAlvo (fold_left (passoMes am tn meta cni false ia2 it2 pol) l st2).
Proof.
  intros Hp. induction l as [|m l IH]; intros st1 st2 Hs Hc Hd Ha; [now split|].
  cbn [fold_left].
  destruct (@passoMes_semInflacao N am tn meta cni ia1 ia2 it1 it2 pol st1 st2 m
              Hp Hs Hc Hd Ha)
    as (Hs' & Hc' & Hd' & Ha').
  now apply IH.
Qed.

Lemma calcularProjecao_semInflacao (N : JsNumber)
    (mi am ra meta al : num) (cni : bool) (pol : option PoliticaAporte)
    (ia1 ia2 : num) (it1 it2 : option (list num)) :
  semInflacao (politicaOuConstante pol) = true ->
  dados (calcularProjecao mi am ra meta al cni false ia1 it1 pol)
    = dados (calcularProjecao mi am ra meta al cni false ia2 it2 pol) /\
  mesAlvo (calcularProjecao mi am ra meta al cni false ia1 it1 pol)
    = mesAlvo (calcularProjecao mi am ra meta al cni false ia2 it2 pol).
Proof.
  intros Hp. unfold calcularProjecao. cbn [dados mesAlvo].
  now apply fold_passoMes_semInflacao.
Qed.

(** X8.  With nominal rates ([usarTaxaReal] false) and a policy that is not
    linked to inflation (constant, monthly or annual percentage), the series
    and the month the target is reached do not depend on the inflation
    inputs. *)
Theorem calcularProjecao_ignores_inflation :
  forall (N : JsNumber)
         (montanteInicial aporteMensal rentabAnual meta anosLimite : num)
         (contribuicaoNoInicio : bool) (politicaAporte : option PoliticaAporte)
         (inflacaoAnual1 inflacaoAnual2 : num)
         (inflacaoTabela1 inflacaoTabela2 : option (list num)),
    semInflacao (politicaOuConstante politicaAporte) = true ->
    dados (calcularProjecao montanteInicial aporteMensal rentabAnual meta anosLimite
             contribuicaoNoInicio false inflacaoAnual1 inflacaoTabela1 politicaAporte)
    = dados (calcularProjecao montanteInicial aporteMensal rentabAnual meta anosLimite
               contribuicaoNoInicio false inflacaoAnual2 inflacaoTabela2 politicaAporte)
    /\
    mesAlvo (calcularProjecao montanteInicial aporteMensal rentabAnual meta anosLimite
               contribuicaoNoInicio false inflacaoAnual1 inflacaoTabela1 politicaAporte)
    = mesAlvo (calcularProjecao montanteInicial aporteMensal rentabAnual meta anosLimite
                 contribuicaoNoInicio false inflacaoAnual2 inflacaoTabela2 politicaAporte).
Proof. intros. now apply calcularProjecao_semInflacao. Qed.

Lemma calcularProjecao_ignores_inflation_witness :
  dados (@calcularProjecao IEEE.number 0%float 100%float 0%float 1200%float 2%float
           true false 0%float None None)
  = dados (@calcularProjecao IEEE.number 0%float 100%float 0%float 1200%float 2%float
             true false 0.05%float (Some [0.1; 0.04]%float) None)
  /\
  mesAlvo (@calcularProjecao IEEE.number 0%float 100%float 0%float 1200%float 2%float
             true false 0%float None None)
  = mesAlvo (@calcularProjecao IEEE.number 0%float 100%float 0%float 1200%float 2%float
               true false 0.05%float (Some [0.1; 0.04]%float) None).
Proof.
  refine (@calcularProjecao_ignores_inflation IEEE.number 0%float 100%float 0%float
            1200%float 2%float true None 0%float 0.05%float None
            (Some [0.1; 0.04]%float) _).
  reflexivity.
Defined.

Lemma saldoFinalComTaxa_semInflacao (N : JsNumber)
    (mi am : num) (n : Z) (cni : bool) (pol : PoliticaAporte)
    (ia1 ia2 : num) (it1 it2 : option (list num)) (r : num) :
  semInflacao pol = true ->
  saldoFinalComTaxa mi am n cni false ia1 it1 pol r
  = saldoFinalComTaxa mi am n cni false ia2 it2 pol r.
Proof.
  intros Hp. unfold saldoFinalComTaxa. apply fold_left_ext_In.
  intros saldo m _. cbv zeta. unfold taxaMensalEfetiva.
  now rewrite (@aporteNoMes_semInflacao N m am pol ia1 ia2 it1 it2 Hp).
Qed.

Lemma buscaTaxa_ext (N : JsNumber) (sf1 sf2 : num -> num) (meta : num) :
  (forall x, sf1 x = sf2 x) ->
  forall iteracoes lo hi found,
    buscaTaxa sf1 meta iteracoes lo hi found = buscaTaxa sf2 meta iteracoes lo hi found.
Proof.
  intros Hsf iteracoes. induction iteracoes as [|i IH]; intros lo hi found;
    [reflexivity|].
  cbn [buscaTaxa]. rewrite Hsf.
  destruct (negb _); [reflexivity|]. destruct (_ >=? _)%J; apply IH.
Qed.

Lemma dobrarLimite_ext (N : JsNumber) (f g : num -> option bool) :
  (forall x, f x = g x) ->
  forall restantes hi, dobrarLimite f restantes hi = dobrarLimite g restantes hi.
Proof.
  intros Hfg restantes. induction restantes as [|r IH]; intros hi; cbn; rewrite Hfg.
  - reflexivity.
  - destruct (g hi) as [[|]|]; try reflexivity.
    destruct (_ >? _)%J; [reflexivity|apply IH].
Qed.

Lemma bissecaoAporte_ext (N : JsNumber) (f g : num -> option bool) :
  (forall x, f x = g x) ->
  forall iteracoes lo hi,
    bissecaoAporte f iteracoes lo hi = bissecaoAporte g iteracoes lo hi.
Proof.
  intros Hfg iteracoes. induction iteracoes as [|i IH]; intros lo hi; cbn;
    [reflexivity|].
  rewrite Hfg. destruct (g _) as [[|]|]; try reflexivity; apply IH.
Qed.

Lemma atingeMetaComAporte_semInflacao (N : JsNumber)
    (mi ra anos meta : num) (cni : bool) (pol : option PoliticaAporte)
    (ia1 ia2 : num) (it1 it2 : option (list num)) (A : num) :
  semInflacao (politicaOuConstante pol) = true ->
  atingeMetaComAporte mi ra anos meta cni false ia1 it1 pol A
  = atingeMetaComAporte mi ra anos meta cni false ia2 it2 pol A.
Proof.
  intros Hp. unfold atingeMetaComAporte.
  destruct (@calcularProjecao_semInflacao N mi A ra meta anos cni
              (Some (politicaOuConstante pol)) ia1 ia2 it1 it2 Hp) as [-> ->].
  reflexivity.
Qed.

(** X9.  Under the same conditions (nominal rates, a policy not linked to
    inflation) the two solvers do not depend on the inflation inputs
    either. *)
Theorem solvers_ignore_inflation :
  forall (N : JsNumber)
         (montanteInicial aporteMensal rentabAnual anos meta : num)
         (contribuicaoNoInicio : bool) (politicaAporte : option PoliticaAporte)
         (inflacaoAnual1 inflacaoAnual2 : num)
         (inflacaoTabela1 inflacaoTabela2 : option (list num)),
    semInflacao (politicaOuConstante politicaAporte) = true ->
    aporteNecessario montanteInicial rentabAnual anos meta contribuicaoNoInicio false
      inflacaoAnual1 inflacaoTabela1 politicaAporte
    = aporteNecessario montanteInicial rentabAnual anos meta contribuicaoNoInicio false
        inflacaoAnual2 inflacaoTabela2 politicaAporte
    /\
    taxaNecessaria montanteInicial aporteMensal anos meta contribuicaoNoInicio false
      inflacaoAnual1 inflacaoTabela1 politicaAporte
    = taxaNecessaria montanteInicial aporteMensal anos meta contribuicaoNoInicio false
        inflacaoAnual2 inflacaoTabela2 politicaAporte.
Proof.
  intros N mi am ra anos meta cni pol ia1 ia2 it1 it2 Hp. split.
  - unfold aporteNecessario.
    rewrite (@dobrarLimite_ext N
               (atingeMetaComAporte mi ra anos meta cni false ia1 it1 pol)
               (atingeMetaComAporte mi ra anos meta cni false ia2 it2 pol))
      by (intros x; now apply atingeMetaComAporte_semInflacao).
    destruct (dobrarLimite _ 50 _); [|reflexivity].
    apply bissecaoAporte_ext. intros x. now apply atingeMetaComAporte_semInflacao.
  - rewrite !taxaNecessaria_eq.
    rewrite (@buscaTaxa_ext N
               (saldoFinalComTaxa mi am (Z.max 1 (Math_round (anos * ofZ 12)%J)) cni
                  false ia1 it1 (politicaOuConstante pol))
               (saldoFinalComTaxa mi am (Z.max 1 (Math_round (anos * ofZ 12)%J)) cni
                  false ia2 it2 (politicaOuConstante pol)))
      by (intros x; now apply saldoFinalComTaxa_semInflacao).
    reflexivity.
Qed.

Lemma solvers_ignore_inflation_witness :
  @aporteNecessario IEEE.number 0%float 0%float 10%float 12000%float true false
    0%float None None
  = @aporteNecessario IEEE.number 0%float 0%float 10%float 12000%float true false
      0.05%float (Some [0.1; 0.04]%float) None
  /\
  @taxaNecessaria IEEE.number 0%float 100%float 10%float 12000%float true false
    0%float None None
  = @taxaNecessaria IEEE.number 0%float 100%float 10%float 12000%float true false
      0.05%float (Some [0.1; 0.04]%float) None.
Proof.
  refine (@solvers_ignore_inflation IEEE.number 0%float 100%float 0%float 10%float
            12000%float true None 0%float 0.05%float None (Some [0.1; 0.04]%float) _).
  reflexivity.
Defined.

(** ** Contribution policies in the first year and without extra growth *)

(** X10.  The first contribution is the base amount under every policy, and
    every policy but the monthly one pays the base amount in each of the
    months 1..11: no adjustment happens before month 12. *)
Theorem aporteNoMes_first_year :
  forall (N : JsNumber), UnitLaws N ->
  forall (base inflacaoAnual : num) (inflacaoTabela : option (list num))
         (politica : PoliticaAporte),
    aporteNoMes 1 base politica inflacaoAnual inflacaoTabela = base /\
    (forall m : Z, (1 <= m <= 11)%Z ->
       (forall g, politica <> mensal_pct g) ->
       aporteNoMes m base politica inflacaoAnual inflacaoTabela = base).
Proof.
  intros N L base ia it pol.
  assert (H11 : forall m : Z, (1 <= m <= 11)%Z ->
            (forall g, pol <> mensal_pct g) -> aporteNoMes m base pol ia it = base).
  { intros m Hm Hp. unfold aporteNoMes. rewrite Z.div_small by lia.
    destruct pol; cbn [range1 Z.to_nat seq map fold_left].
    - reflexivity.
    - now elim (Hp mensalPct).
    - now rewrite (pow_0_r L), (mul_1_r L).
    - now rewrite (mul_1_r L).
    - now rewrite (mul_1_r L). }
  split; [|exact H11].
  destruct pol; try (apply H11; [lia|discriminate]).
  cbn. now rewrite (pow_0_r L), (mul_1_r L).
Qed.

Lemma aporteNoMes_first_year_witness :
  @aporteNoMes IEEE.number 1 100%float (@anual_real IEEE.number 0.02%float) 0.05%float
    None = 100%float /\
  (forall m : Z, (1 <= m <= 11)%Z ->
     (forall g, @anual_real IEEE.number 0.02%float <> mensal_pct g) ->
     @aporteNoMes IEEE.number m 100%float (@anual_real IEEE.number 0.02%float)
       0.05%float None = 100%float).
Proof.
  exact (@aporteNoMes_first_year IEEE.number IEEE_unit_laws 100%float 0.05%float None
           (@anual_real IEEE.number 0.02%float)).
Defined.

(** X11.  An extra real growth of zero makes the real-linked policy the
    inflation-linked one, in every month. *)
Theorem aporteNoMes_anual_real_zero :
  forall (N : JsNumber), UnitLaws N -> (ofZ 1 + ofZ 0)%J = ofZ 1 ->
  forall (m : Z) (base inflacaoAnual : num) (inflacaoTabela : option (list num)),
    aporteNoMes m base (anual_real (ofZ 0)) inflacaoAnual inflacaoTabela
    = aporteNoMes m base anual_inflacao inflacaoAnual inflacaoTabela.
Proof.
  intros N L H10 m base ia it. unfold aporteNoMes. f_equal.
  apply fold_left_ext_In. intros fator k _.
  now rewrite H10, (mul_1_r L).
Qed.

Lemma aporteNoMes_anual_real_zero_witness :
  @aporteNoMes IEEE.number 24 100%float (@anual_real IEEE.number 0%float) 0.05%float
    (Some [0.1]%float)
  = @aporteNoMes IEEE.number 24 100%float (@anual_inflacao IEEE.number) 0.05%float
      (Some [0.1]%float).
Proof.
  exact (@aporteNoMes_anual_real_zero IEEE.number IEEE_unit_laws eq_refl 24%Z
           100%float 0.05%float (Some [0.1]%float)).
Defined.

(** ** Months and years of the inflation schedule *)

Lemma inflacaoAnualDoAno_defined (N : JsNumber) (anoIndex : Z) (padrao : num)
    (tabela : option (list num)) :
  (1 <= anoIndex)%Z ->
  exists v, inflacaoAnualDoAno anoIndex padrao tabela = Some v /\
            (v = padrao \/ exists t, tabela = Some t /\ In v t).
Proof.
  intros Ha. unfold inflacaoAnualDoAno.
  destruct tabela as [t|]; [|now exists padrao; auto].
  destruct (Z.eqb_spec (Z.of_nat (List.length t)) 0) as [_|Hne];
    [now exists padrao; auto|].
  assert (Hidx : forall i, (0 <= i < Z.of_nat (List.length t))%Z ->
            exists v, index t i = Some v /\ In v t).
  { intros i Hi. unfold index. destruct (Z.ltb_spec i 0); [lia|].
    destruct (nth_error t (Z.to_nat i)) as [v|] eqn:E.
    - exists v. split; [reflexivity|]. eapply nth_error_In; eauto.
    - apply nth_error_None in E. lia. }
  destruct (Z.ltb_spec (anoIndex - 1) (Z.of_nat (List.length t))).
  - destruct (Hidx (anoIndex - 1)%Z ltac:(lia)) as (v & Hv & Hin).
    exists v. split; [exact Hv|]. right. now exists t.
  - destruct (Hidx (Z.of_nat (List.length t) - 1)%Z ltac:(lia)) as (v & Hv & Hin).
    exists v. split; [exact Hv|]. right. now exists t.
Qed.

(** X12.  Month [m] of year [y] (months 12(y-1)+1 .. 12y) uses the annual
    rate of year [y]: that rate is always defined, it is the default rate or
    an entry of the schedule, and the monthly rate is
    [(1 + rate)^(1/12) - 1]. *)
Theorem inflacaoMensalDoMes_year :
  forall (N : JsNumber) (m y : Z) (inflacaoPadrao : num) (tabela : option (list num)),
    (1 <= m)%Z -> (12 * (y - 1) < m <= 12 * y)%Z ->
    exists taxaAnual : num,
      inflacaoAnualDoAno y inflacaoPadrao tabela = Some taxaAnual /\
      (taxaAnual = inflacaoPadrao \/ exists t, tabela = Some t /\ In taxaAnual t) /\
      inflacaoMensalDoMes m inflacaoPadrao tabela
      = (Math_pow (ofZ 1 + taxaAnual) (ofZ 1 / ofZ 12) - ofZ 1)%J.
Proof.
  intros N m y p tab Hm Hy.
  destruct (@inflacaoAnualDoAno_defined N y p tab ltac:(lia)) as (v & Hv & Hin).
  exists v. split; [exact Hv|]. split; [exact Hin|].
  unfold inflacaoMensalDoMes.
  replace (- (- m / 12))%Z with y.
  - now rewrite Hv.
  - assert (E : (- m / 12 = - y)%Z).
    { symmetry. apply (Z.div_unique (- m) 12 (- y) (12 * y - m)); lia. }
    lia.
Qed.

Lemma inflacaoMensalDoMes_year_witness :
  exists taxaAnual : float,
    @inflacaoAnualDoAno IEEE.number 2 0%float (Some [0.1; 0]%float) = Some taxaAnual /\
    (taxaAnual = 0%float \/
     exists t, Some [0.1; 0]%float = Some t /\ In taxaAnual t) /\
    @inflacaoMensalDoMes IEEE.number 13 0%float (Some [0.1; 0]%float)
    = PrimFloat.sub (IEEE.pow (PrimFloat.add 1 taxaAnual) (PrimFloat.div 1 12)) 1.
Proof.
  refine (@inflacaoMensalDoMes_year IEEE.number 13%Z 2%Z 0%float
            (Some [0.1; 0]%float) _ _); lia.
Defined.

(** ** The bracket of [aporteNecessario] *)

Lemma dobrado_S (N : JsNumber) (k : nat) (hi : num) :
  dobrado (S k) hi = dobrado k (hi * ofZ 2)%J.
Proof. unfold dobrado. now rewrite Nat.iter_succ_r. Qed.

Lemma dobrarLimite_shape (N : JsNumber) (atinge : num -> option bool) :
  (forall x, exists b, atinge x = Some b) ->
  forall restantes hi,
  exists k : nat,
    (k <= restantes)%nat /\
    dobrarLimite atinge restantes hi = Some (dobrado k hi) /\
    (forall j, (j < k)%nat -> atinge (dobrado j hi) = Some false) /\
    (forall j, (1 <= j < k)%nat -> (dobrado j hi >? ofZ 1000000000)%J = false) /\
    (atinge (dobrado k hi) = Some true \/
     ((1 <= k)%nat /\ (dobrado k hi >? ofZ 1000000000)%J = true) \/
     k = restantes).
Proof.
  intros Htot restantes. induction restantes as [|r IH]; intros hi.
  - exists O. cbn [dobrarLimite].
    destruct (Htot hi) as ([|] & Hhi); rewrite Hhi;
      (split; [lia|split; [reflexivity|split; [intros j Hj; lia|split;
        [intros j Hj; lia|right; right; reflexivity]]]]).
  - cbn [dobrarLimite]. destruct (Htot hi) as ([|] & Hhi); rewrite Hhi.
    + exists O. split; [lia|]. split; [reflexivity|].
      split; [intros j Hj; lia|]. split; [intros j Hj; lia|]. left. exact Hhi.
    + cbv zeta. destruct (hi * ofZ 2 >? ofZ 1000000000)%J eqn:Hg.
      * exists 1%nat. split; [lia|]. split; [reflexivity|].
        split; [|split; [intros j Hj; lia|]].
        -- intros j Hj. replace j with O by lia. exact Hhi.
        -- right. left. split; [lia|exact Hg].
      * destruct (IH (hi * ofZ 2)%J) as (k & Hk & Hres & Hfalse & Hsmall & Hstop).
        exists (S k). rewrite dobrado_S. split; [lia|]. split; [exact Hres|].
        split; [|split].
        -- intros [|j] Hj; [exact Hhi|]. rewrite dobrado_S. apply Hfalse. lia.
        -- intros [|[|j]] Hj; [lia|exact Hg|]. rewrite dobrado_S. apply Hsmall. lia.
        -- destruct Hstop as [H|[[H1 H2]|H]].
           ++ left. exact H.
           ++ right. left. split; [lia|exact H2].
           ++ right. right. lia.
Qed.

(** X13.  The doubling phase of [aporteNecessario] leaves the starting bound
    [max(100, meta / nMeses)] doubled [k] times, [k <= 50]: every earlier
    bound failed the predicate and, once doubled, stayed at most 1e9; the
    loop stopped because the bound reached passes, or exceeds 1e9, or the 50
    turns are used up.  The bisection then starts from [0] and that bound. *)
Theorem aporteNecessario_doubling :
  forall (N : JsNumber)
         (montanteInicial rentabAnual anos meta : num)
         (contribuicaoNoInicio usarTaxaReal : bool)
         (inflacaoAnual : num) (inflacaoTabela : option (list num))
         (politicaAporte : option PoliticaAporte),
    let atinge :=
      atingeMetaComAporte montanteInicial rentabAnual anos meta contribuicaoNoInicio
        usarTaxaReal inflacaoAnual inflacaoTabela politicaAporte in
    let hi0 :=
      Math_max (ofZ 100) (meta / ofZ (Z.max 1 (Math_round (anos * ofZ 12)%J)))%J in
    exists k : nat,
      (k <= 50)%nat /\
      (forall j, (j < k)%nat -> atinge (dobrado j hi0) = Some false) /\
      (forall j, (1 <= j < k)%nat -> (dobrado j hi0 >? ofZ 1000000000)%J = false) /\
      (atinge (dobrado k hi0) = Some true \/
       ((1 <= k)%nat /\ (dobrado k hi0 >? ofZ 1000000000)%J = true) \/
       k = 50%nat) /\
      aporteNecessario montanteInicial rentabAnual anos meta contribuicaoNoInicio
        usarTaxaReal inflacaoAnual inflacaoTabela politicaAporte
      = bissecaoAporte atinge 80 (ofZ 0) (dobrado k hi0).
Proof.
  intros N mi ra anos meta cni utr ia it pol atinge hi0.
  destruct (@dobrarLimite_shape N atinge
              (fun x => atingeMetaComAporte_total mi ra anos meta cni utr ia it pol x)
              50 hi0) as (k & Hk & Hres & Hfalse & Hsmall & Hstop).
  exists k. split; [exact Hk|]. split; [exact Hfalse|]. split; [exact Hsmall|].
  split; [exact Hstop|].
  unfold aporteNecessario. fold atinge hi0. rewrite Hres. reflexivity.
Qed.

Lemma dobrarLimite_true (N : JsNumber) (atinge : num -> option bool)
    (restantes : nat) (hi : num) :
  atinge hi = Some true -> dobrarLimite atinge restantes hi = Some hi.
Proof. intros H. destruct restantes; cbn; now rewrite H. Qed.

Lemma reduzido_S (N : JsNumber) (k : nat) (lo hi : num) :
  reduzido (S k) lo hi = reduzido k lo ((lo + hi) / ofZ 2)%J.
Proof. unfold reduzido. now rewrite Nat.iter_succ_r. Qed.

Lemma bissecaoAporte_all_true (N : JsNumber) (atinge : num -> option bool) :
  (forall x, atinge x = Some true) ->
  forall iteracoes lo hi,
    bissecaoAporte atinge iteracoes lo hi = Some (reduzido iteracoes lo hi).
Proof.
  intros Hall iteracoes. induction iteracoes as [|i IH]; intros lo hi.
  - reflexivity.
  - cbn [bissecaoAporte]. cbv zeta. rewrite Hall, reduzido_S. apply IH.
Qed.

Lemma bissecaoAporte_all_false (N : JsNumber) (atinge : num -> option bool) :
  (forall x, atinge x = Some false) ->
  forall iteracoes lo hi, bissecaoAporte atinge iteracoes lo hi = Some hi.
Proof.
  intros Hall iteracoes. induction iteracoes as [|i IH]; intros lo hi.
  - reflexivity.
  - cbn [bissecaoAporte]. cbv zeta. rewrite Hall. apply IH.
Qed.

Lemma dobrarLimite_all_false (N : JsNumber) (atinge : num -> option bool) :
  (forall x, atinge x = Some false) ->
  forall restantes hi, exists v, dobrarLimite atinge restantes hi = Some v.
Proof.
  intros Hall. apply dobrarLimite_total. intros x. exists false. apply Hall.
Qed.

(** The first-hit month of a projection, from the balances of the loop. *)
Lemma calcularProjecao_mesAlvo_find (N : JsNumber)
    (mi am ra meta al : num) (cni utr : bool) (ia : num) (it : option (list num))
    (pol : option PoliticaAporte) :
  mesAlvo (calcularProjecao mi am ra meta al cni utr ia it pol) =
  if (mi >=? meta)%J then Some 0%Z
  else
    find (fun m =>
            (st_saldo
               (estadoApos mi am (Math_pow (ofZ 1 + ra) (ofZ 1 / ofZ 12) - ofZ 1)%J meta
                  cni utr ia it (politicaOuConstante pol) (Z.to_nat m)) >=? meta)%J)
      (range1 (Z.max 1 (Math_floor (al * ofZ 12)%J))).
Proof.
  rewrite resultado_mesAlvo, apos_mesAlvo.
  rewrite Z2Nat.id by lia. reflexivity.
Qed.

Lemma atingeMetaComAporte_already (N : JsNumber)
    (mi ra anos meta : num) (cni utr : bool) (ia : num) (it : option (list num))
    (pol : option PoliticaAporte) (A : num) :
  (mi >=? meta)%J = true ->
  atingeMetaComAporte mi ra anos meta cni utr ia it pol A = Some true.
Proof.
  intros H. unfold atingeMetaComAporte.
  rewrite calcularProjecao_mesAlvo_find, H.
  destruct (Z.leb_spec 0 (Z.max 1 (Math_round (anos * ofZ 12)%J))); [reflexivity|lia].
Qed.

(** X14.  When the initial amount already reaches the target, the projection
    reports month 0 whatever the contribution, and [aporteNecessario] returns
    its starting bound [max(100, meta / nMeses)] halved towards 0 eighty
    times: no doubling, and every bisection step moves the upper bound. *)
Theorem aporteNecessario_target_already_met :
  forall (N : JsNumber)
         (montanteInicial rentabAnual anos meta : num)
         (contribuicaoNoInicio usarTaxaReal : bool)
         (inflacaoAnual : num) (inflacaoTabela : option (list num))
         (politicaAporte : option PoliticaAporte),
    (montanteInicial >=? meta)%J = true ->
    (forall aporteMensal anosLimite,
       mesAlvo (calcularProjecao montanteInicial aporteMensal rentabAnual meta anosLimite
                  contribuicaoNoInicio usarTaxaReal inflacaoAnual inflacaoTabela
                  politicaAporte) = Some 0%Z) /\
    aporteNecessario montanteInicial rentabAnual anos meta contribuicaoNoInicio
      usarTaxaReal inflacaoAnual inflacaoTabela politicaAporte
    = Some (reduzido 80 (ofZ 0)
              (Math_max (ofZ 100)
                 (meta / ofZ (Z.max 1 (Math_round (anos * ofZ 12)%J)))%J)).
Proof.
  intros N mi ra anos meta cni utr ia it pol H. split.
  - intros am al. now rewrite calcularProjecao_mesAlvo_find, H.
  - unfold aporteNecessario.
    rewrite (@dobrarLimite_true N _ 50 _
               (@atingeMetaComAporte_already N mi ra anos meta cni utr ia it pol _ H)).
    apply bissecaoAporte_all_true. intros x. now apply atingeMetaComAporte_already.
Qed.

Lemma aporteNecessario_target_already_met_witness :
  (forall aporteMensal anosLimite,
     mesAlvo (@calcularProjecao IEEE.number 1000%float aporteMensal 0.1%float 500%float
                anosLimite true false 0%float None None) = Some 0%Z) /\
  @aporteNecessario IEEE.number 1000%float 0.1%float 1%float 500%float true false
    0%float None None
  = Some (@reduzido IEEE.number 80 0%float
            (IEEE.max 100%float (PrimFloat.div 500%float 12%float))).
Proof.
  refine (@aporteNecessario_target_already_met IEEE.number 1000%float 0.1%float 1%float
            500%float true false 0%float None None _).
  vm_compute. reflexivity.
Defined.

(** With 1000 in hand and a target of 500 the answer is 100 / 2^80, not 0. *)
Example aporteNecessario_never_zero :
  @aporteNecessario IEEE.number 1000%float 0.1%float 1%float 500%float true false
    0%float None None
  = Some (PrimFloat.div 100 0x1p80)%float.
Proof. vm_compute. reflexivity. Qed.

(** ** A target no balance compares to *)

Lemma atingeMetaComAporte_never (N : JsNumber)
    (mi ra anos meta : num) (cni utr : bool) (ia : num) (it : option (list num))
    (pol : option PoliticaAporte) (A : num) :
  (forall x : num, (x >=? meta)%J = false) ->
  atingeMetaComAporte mi ra anos meta cni utr ia it pol A = Some false.
Proof.
  intros H. unfold atingeMetaComAporte.
  rewrite calcularProjecao_mesAlvo_find, H.
  rewrite (proj2 (find_None_iff _ _)) by (intros m _; apply H).
  rewrite saldoFinal_resultado. now rewrite H.
Qed.

Lemma IEEE_geb_nan (x : float) : PrimFloat.leb IEEE.nan x = false.
Proof.
  rewrite leb_spec.
  replace (Prim2SF IEEE.nan) with S754_nan by (vm_compute; reflexivity).
  reflexivity.
Qed.

(** X15.  A target that no number is [>=] to (NaN is one) is never reported
    as reached: the projection has no first-hit month, [taxaNecessaria]
    returns [null], and [aporteNecessario] still returns a number, its
    starting bound doubled [k <= 50] times and left unchanged by the
    bisection, which does not meet the target. *)
Theorem target_never_reached :
  forall (N : JsNumber)
         (montanteInicial aporteMensal rentabAnual anos meta : num)
         (contribuicaoNoInicio usarTaxaReal : bool)
         (inflacaoAnual : num) (inflacaoTabela : option (list num))
         (politicaAporte : option PoliticaAporte),
    (forall x : num, (x >=? meta)%J = false) ->
    mesAlvo (calcularProjecao montanteInicial aporteMensal rentabAnual meta anos
               contribuicaoNoInicio usarTaxaReal inflacaoAnual inflacaoTabela
               politicaAporte) = None /\
    taxaNecessaria montanteInicial aporteMensal anos meta contribuicaoNoInicio
      usarTaxaReal inflacaoAnual inflacaoTabela politicaAporte = None /\
    exists k : nat,
      (k <= 50)%nat /\
      let A :=
        dobrado k
          (Math_max (ofZ 100) (meta / ofZ (Z.max 1 (Math_round (anos * ofZ 12)%J)))%J) in
      aporteNecessario montanteInicial rentabAnual anos meta contribuicaoNoInicio
        usarTaxaReal inflacaoAnual inflacaoTabela politicaAporte = Some A /\
      atingeMetaComAporte montanteInicial rentabAnual anos meta contribuicaoNoInicio
        usarTaxaReal inflacaoAnual inflacaoTabela politicaAporte A = Some false.
Proof.
  intros N mi am ra anos meta cni utr ia it pol H. split; [|split].
  - rewrite calcularProjecao_mesAlvo_find, H.
    apply find_None_iff. intros m _. apply H.
  - rewrite taxaNecessaria_eq.
    rewrite (proj2 (@buscaTaxa_None N _ meta 160 (lit (-9 # 10)) (ofZ 1))); [reflexivity|].
    intros c _. unfold qualifica. rewrite H. apply andb_false_r.
  - pose proof (fun x => @atingeMetaComAporte_never N mi ra anos meta cni utr ia it pol x H)
      as Hnever.
    destruct (@dobrarLimite_shape N
                (atingeMetaComAporte mi ra anos meta cni utr ia it pol)
                (fun x => atingeMetaComAporte_total mi ra anos meta cni utr ia it pol x)
                50
                (Math_max (ofZ 100) (meta / ofZ (Z.max 1 (Math_round (anos * ofZ 12)%J)))%J))
      as (k & Hk & Hres & _).
    exists k. split; [exact Hk|]. cbv zeta. split; [|apply Hnever].
    unfold aporteNecessario. rewrite Hres.
    now apply bissecaoAporte_all_false.
Qed.

Lemma target_never_reached_witness :
  mesAlvo (@calcularProjecao IEEE.number 0%float 100%float 0%float IEEE.nan 1%float
             true false 0%float None None) = None /\
  @taxaNecessaria IEEE.number 0%float 100%float 1%float IEEE.nan true false 0%float
    None None = None /\
  exists k : nat,
    (k <= 50)%nat /\
    let A :=
      @dobrado IEEE.number k
        (IEEE.max (@ofZ IEEE.number 100)
           (PrimFloat.div IEEE.nan
              (@ofZ IEEE.number
                 (Z.max 1 (IEEE.round (PrimFloat.mul 1%float (@ofZ IEEE.number 12))))))) in
    @aporteNecessario IEEE.number 0%float 0%float 1%float IEEE.nan true false 0%float
      None None = Some A /\
    @atingeMetaComAporte IEEE.number 0%float 0%float 1%float IEEE.nan true false 0%float
      None None A = Some false.
Proof.
  exact (@target_never_reached IEEE.number 0%float 100%float 0%float 1%float IEEE.nan
           true false 0%float None None (fun x => IEEE_geb_nan x)).
Defined.

(** ** Tokens of [parseInflacaoTabela] *)

Lemma semSeparador_app (a b : string) :
  semSeparador (a ++ b) = semSeparador a && semSeparador b.
Proof.
  induction a as [|c a IH]; cbn; [reflexivity|].
  rewrite IH. apply andb_assoc.
Qed.

Lemma splitAux_pecas (s : string) :
  forall (peca : string) (emSeparador : bool),
    semSeparador peca = true ->
    Forall (fun t => semSeparador t = true) (splitAux s peca emSeparador).
Proof.
  induction s as [|c r IH]; intros peca b Hp; cbn [splitAux].
  - constructor; [exact Hp|constructor].
  - destruct (separador c) eqn:Hc.
    + destruct b; [now apply IH|]. constructor; [exact Hp|]. now apply IH.
    + apply IH. rewrite semSeparador_app, Hp. cbn. now rewrite Hc.
Qed.

Lemma separador_espaco (c : ascii) : separador c = false -> espaco c = false.
Proof. unfold separador. intros H. now apply orb_false_elim in H. Qed.

Lemma separador_virgula (c : ascii) :
  separador c = false -> (nat_of_ascii c =? 44)%nat = false.
Proof.
  unfold separador. intros H. apply orb_false_elim in H. destruct H as [H _].
  now apply orb_false_elim in H.
Qed.

Lemma trimStart_semSeparador (t : string) : semSeparador t = true -> trimStart t = t.
Proof.
  destruct t as [|c r]; [reflexivity|]. cbn. intros H.
  apply andb_true_iff in H. destruct H as [Hc _].
  apply negb_true_iff in Hc. now rewrite (separador_espaco _ Hc).
Qed.

Lemma rev_string_semSeparador (t : string) :
  semSeparador (rev_string t) = semSeparador t.
Proof.
  induction t as [|c r IH]; [reflexivity|]. cbn.
  rewrite semSeparador_app, IH. cbn. rewrite andb_true_r. apply andb_comm.
Qed.

Lemma rev_string_snoc (a : string) (c : ascii) :
  rev_string (a ++ String c EmptyString) = String c (rev_string a).
Proof.
  induction a as [|d a IH]; [reflexivity|]. cbn. now rewrite IH.
Qed.

Lemma rev_string_involutive (t : string) : rev_string (rev_string t) = t.
Proof.
  induction t as [|c r IH]; [reflexivity|]. cbn. now rewrite rev_string_snoc, IH.
Qed.

Lemma trim_semSeparador (t : string) : semSeparador t = true -> trim t = t.
Proof.
  intros H. unfold trim. rewrite (trimStart_semSeparador _ H).
  rewrite trimStart_semSeparador by now rewrite rev_string_semSeparador.
  apply rev_string_involutive.
Qed.

Lemma semPorcento_semSeparador (t : string) :
  semSeparador t = true -> semSeparador (semPorcento t) = true.
Proof.
  induction t as [|c r IH]; [reflexivity|]. cbn. intros H.
  apply andb_true_iff in H. destruct H as [Hc Hr].
  destruct (nat_of_ascii c =? 37)%nat; [now apply IH|].
  cbn. now rewrite Hc, IH.
Qed.

Lemma virgulaParaPonto_semSeparador (t : string) :
  semSeparador t = true -> virgulaParaPonto t = t.
Proof.
  induction t as [|c r IH]; [reflexivity|]. cbn. intros H.
  apply andb_true_iff in H. destruct H as [Hc Hr].
  apply negb_true_iff in Hc. rewrite (separador_virgula _ Hc). now rewrite IH.
Qed.

Lemma splitTabela_pecas (str : string) :
  Forall (fun t => semSeparador t = true) (splitTabela str).
Proof. now apply splitAux_pecas. Qed.

Lemma map_id_Forall {A : Type} (f : A -> A) (P : A -> Prop) (l : list A) :
  (forall x, P x -> f x = x) -> Forall P l -> map f l = l.
Proof.
  intros Hf Hl. induction Hl as [|x l Hx _ IH]; [reflexivity|].
  cbn. now rewrite (Hf x Hx), IH.
Qed.

Lemma Forall_filter {A : Type} (P : A -> Prop) (f : A -> bool) (l : list A) :
  Forall P l -> Forall P (filter f l).
Proof.
  intros Hl. induction Hl as [|x l Hx _ IH]; [constructor|].
  cbn. destruct (f x); [now constructor|exact IH].
Qed.

(** The pipeline with the two steps that never change a token left out. *)
Lemma parseInflacaoTabela_pecas (N : JsNumber) (str : string) :
  parseInflacaoTabela str =
  map (fun x => Math_max (lit (-99 # 100)) x)
    (filter Number_isFinite
       (map (fun s => Number_ (semPorcento s))
          (filter naoVazia (splitTabela str)))).
Proof.
  unfold parseInflacaoTabela.
  rewrite (map_id_Forall trim trim_semSeparador (splitTabela_pecas str)).
  rewrite map_map. do 2 f_equal.
  apply map_ext_in. intros t Ht. f_equal.
  apply virgulaParaPonto_semSeparador, semPorcento_semSeparador.
  apply filter_In in Ht. destruct Ht as [Ht _].
  exact (proj1 (Forall_forall _ _) (splitTabela_pecas str) t Ht).
Qed.

(** X16.  No token of the schedule contains a separator, and the comma is
    one: [trim] and the replacement of a comma by a point leave every token
    as it is, so the entries are the finite values of [Number] on the
    non-empty pieces with their percent signs removed, floored at -0.99.  A
    decimal comma is never converted. *)
Theorem parseInflacaoTabela_tokens :
  forall (N : JsNumber) (str : string),
    Forall (fun t => semSeparador t = true /\ trim t = t /\
                     virgulaParaPonto (semPorcento t) = semPorcento t)
           (splitTabela str) /\
    parseInflacaoTabela str =
    map (fun x => Math_max (lit (-99 # 100)) x)
      (filter Number_isFinite
         (map (fun s => Number_ (semPorcento s))
            (filter naoVazia (splitTabela str)))).
Proof.
  intros N str. split; [|apply parseInflacaoTabela_pecas].
  eapply Forall_impl; [|apply splitTabela_pecas].
  intros t Ht. split; [exact Ht|]. split; [now apply trim_semSeparador|].
  now apply virgulaParaPonto_semSeparador, semPorcento_semSeparador.
Qed.

(** "0,035" is read as the two rates 0 and 35, and "3,5%" as 3 and 5. *)
Example parseInflacaoTabela_decimal_comma :
  @parseInflacaoTabela IEEE.number "0,035" = [0; 35]%float /\
  @parseInflacaoTabela IEEE.number "3,5%" = [3; 5]%float.
Proof. vm_compute. split; reflexivity. Qed.

Lemma splitAux_flag (s : string) :
  filter naoVazia (splitAux s EmptyString true)
  = filter naoVazia (splitAux s EmptyString false).
Proof.
  destruct s as [|c r]; [reflexivity|]. cbn [splitAux].
  destruct (separador c); reflexivity.
Qed.

Lemma splitAux_concat (s1 : string) (c : ascii) (s2 : string) :
  separador c = true ->
  forall (peca : string) (emSeparador : bool),
    (emSeparador = true -> peca = EmptyString) ->
    filter naoVazia (splitAux (s1 ++ String c s2) peca emSeparador)
    = filter naoVazia (splitAux s1 peca emSeparador)
      ++ filter naoVazia (splitTabela s2).
Proof.
  intros Hc. unfold splitTabela.
  induction s1 as [|d r IH]; intros peca b Hinv.
  - cbn [String.append splitAux]. rewrite Hc. destruct b.
    + rewrite (Hinv eq_refl). cbn [filter naoVazia List.app]. apply splitAux_flag.
    + cbn [filter]. destruct (naoVazia peca); cbn [List.app];
        now rewrite splitAux_flag.
  - cbn [String.append splitAux]. destruct (separador d).
    + destruct b.
      * now apply IH.
      * cbn [filter]. rewrite IH by reflexivity.
        destruct (naoVazia peca); reflexivity.
    + apply IH. discriminate.
Qed.

(** X17.  A separator between two texts splits the schedule: the entries of
    [s1 c s2] are those of [s1] followed by those of [s2].  In particular a
    leading or a trailing separator adds no entry. *)
Theorem parseInflacaoTabela_concat :
  forall (N : JsNumber) (s1 : string) (c : ascii) (s2 : string),
    separador c = true ->
    parseInflacaoTabela (s1 ++ String c s2)
    = parseInflacaoTabela s1 ++ parseInflacaoTabela s2 /\
    parseInflacaoTabela (String c s2) = parseInflacaoTabela s2 /\
    parseInflacaoTabela (s1 ++ String c EmptyString) = parseInflacaoTabela s1.
Proof.
  intros N s1 c s2 Hc.
  assert (Hcat : forall a b,
            parseInflacaoTabela (a ++ String c b)
            = parseInflacaoTabela a ++ parseInflacaoTabela b).
  { intros a b. rewrite !parseInflacaoTabela_pecas. unfold splitTabela at 1.
    rewrite (@splitAux_concat a c b Hc EmptyString false) by discriminate.
    fold (splitTabela a). now rewrite map_app, filter_app, map_app. }
  split; [apply Hcat|]. split.
  - change (String c s2) with (EmptyString ++ String c s2)%string.
    rewrite Hcat. reflexivity.
  - rewrite Hcat. apply app_nil_r.
Qed.

Lemma parseInflacaoTabela_concat_witness :
  @parseInflacaoTabela IEEE.number ("0.05" ++ String ";" "0.04")
  = @parseInflacaoTabela IEEE.number "0.05" ++ @parseInflacaoTabela IEEE.number "0.04" /\
  @parseInflacaoTabela IEEE.number (String ";" "0.04")
  = @parseInflacaoTabela IEEE.number "0.04" /\
  @parseInflacaoTabela IEEE.number ("0.05" ++ String ";" EmptyString)
  = @parseInflacaoTabela IEEE.number "0.05".
Proof.
  exact (@parseInflacaoTabela_concat IEEE.number "0.05" ";" "0.04" eq_refl).
Defined.
